(** * Globa_Lingo_ relay server: a shallow embedding of the Socket.io core

    The development follows [backend/src/server.js] and its later revision
    (the one that adds the video-call room handlers), together with the
    Mongoose schema in [backend/src/models/Message.js].

    - The in-memory [activeUsers] table is a JavaScript [Map]; its iteration
      order is insertion order and the handlers search it with
      [Array.from(...).find], so it is an association list here.
    - Socket.io's [io.sockets.sockets] and [io.sockets.adapter.rooms] are
      finite maps ([gmap]); a room's member [Set] keeps insertion order and
      is a duplicate-free list.
    - The [Message] collection is a list of documents in insertion order; the
      [User] collection, which [populate] reads, is a finite map.
    - Every handler is a function from the server state, the connection that
      sent the event, the current time and the payload to the new state and
      the list of events emitted, in emission order.  A [try]/[catch] is a
      match on a completion ([Normal] or [Throw]).
    - Identifiers are canonical ObjectId strings, so [toString()] is the
      identity on them and casting never fails; strings stand for their
      sequences of code units.  A payload field is a value of its type or
      absent ([undefined], [None]); an event may also come without payload.
    - Time is an input: every handler is given the value [new Date()] has
      when it runs.  A handler runs to its end before the next one starts.

    The client's [SocketService] class and the reaction helpers of the chat
    page, which call and are called by these handlers, follow the server. *)

From Stdlib Require Import String Ascii List Bool Arith Lia Sorted Permutation.
From stdpp Require Import gmap strings list fin_maps sorting.

Set Default Proof Using "Type".

(** ** JavaScript values used by the handlers *)

Abbreviation SocketId := string (only parsing).
Abbreviation UserId := string (only parsing).
Abbreviation MessageId := nat (only parsing).
Abbreviation Date := nat (only parsing).
(** An uninterpreted payload the relay forwards verbatim; [None] is
    [undefined]. *)
Abbreviation Opaque := (option string) (only parsing).

(** The outcome of evaluating a JavaScript expression that may throw. *)
Inductive Completion (A : Type) : Type :=
| Normal (a : A)
| Throw.
Arguments Normal {A} a.
Arguments Throw {A}.

(** Truthiness of an optional string ([if (fileUrl)], [x || "default"]). *)
Definition truthy (x : option string) : bool :=
  match x with
  | Some s => negb (String.eqb s "")
  | None => false
  end.

(** [x || d] for an optional string [x] and a string default [d]. *)
Definition or_default (x : option string) (d : string) : string :=
  match x with
  | Some s => if String.eqb s "" then d else s
  | None => d
  end.

(** [if (x) obj.field = x]: the field takes [x] when truthy and keeps the
    schema default [null] otherwise. *)
Definition if_truthy (x : option string) : option string :=
  if truthy x then x else None.

(** ** Conversation id: [[a, b].sort().join("-")] *)

Module JsArray.

(** The default sort order of [Array.prototype.sort]: [undefined] goes
    last, everything else is compared as a string by code units. *)
Definition before (x y : option string) : bool :=
  match x, y with
  | Some a, Some b => String.ltb a b
  | Some _, None => true
  | None, _ => false
  end.

(** Insertion into a sorted array, after every element that is not
    strictly behind [x]: the sort is stable, as the language requires. *)
Fixpoint insert (x : option string) (l : list (option string)) :
  list (option string) :=
  match l with
  | [] => [x]
  | y :: l' => if before y x then y :: insert x l' else x :: y :: l'
  end.

Definition sort (l : list (option string)) : list (option string) :=
  foldr insert [] l.

(** [join] prints [undefined] as the empty string. *)
Definition to_str (x : option string) : string :=
  match x with
  | Some s => s
  | None => ""
  end.

Fixpoint join (sep : string) (l : list (option string)) : string :=
  match l with
  | [] => ""
  | [x] => to_str x
  | x :: l' => to_str x +:+ sep +:+ join sep l'
  end.

End JsArray.

(** The expression both [chat:message] and [chat:get-history] evaluate. *)
Definition mkConversationId (a b : option UserId) : string :=
  JsArray.join "-" (JsArray.sort [a; b]).

(** ** The Message schema *)

Inductive MessageType : Type :=
| mt_text
| mt_image
| mt_file
| mt_call_invite
| mt_call_ended.

(** The schema's [enum] validator on [messageType]. *)
Definition parse_messageType (s : string) : option MessageType :=
  if String.eqb s "text" then Some mt_text
  else if String.eqb s "image" then Some mt_image
  else if String.eqb s "file" then Some mt_file
  else if String.eqb s "call-invite" then Some mt_call_invite
  else if String.eqb s "call-ended" then Some mt_call_ended
  else None.

Record Reaction : Type := mkReaction {
  r_userId : UserId;
  r_emoji : string;
  r_createdAt : Date
}.

Record Message : Type := mkMessage {
  _id : MessageId;
  senderId : UserId;
  receiverId : UserId;
  text : string;
  messageType : MessageType;
  fileUrl : option string;
  fileName : option string;
  fileSize : option N;
  replyTo : option MessageId;
  reactions : list Reaction;
  isRead : bool;
  conversationId : string;
  isEdited : bool;
  editedAt : option Date;
  isDeleted : bool;
  deletedAt : option Date;
  createdAt : Date;
  updatedAt : Date
}.

(** A [User] document, as far as [populate("senderId", "fullName profilePic")]
    reads it.  The User model is not among the sources; the collection is a
    component of the state and the two fields are the ones [populate]
    selects. *)
Record UserDoc : Type := mkUserDoc {
  u_fullName : string;
  u_profilePic : string
}.

(** Mongoose's [required] validator on a String path rejects [undefined],
    [null] and the empty string; it runs in [Message.create] and, for the
    paths a handler modified, in [message.save()]. *)
Definition required_string (x : option string) : option string :=
  match x with
  | Some s => if String.eqb s "" then None else Some s
  | None => None
  end.

(** ** Presence: the [activeUsers] Map *)

(** The client's [userData], as far as the server reads it. *)
Record UserData : Type := mkUserData {
  ud_id : option UserId;
  ud_fullName : option string
}.

(** The stored entry [{...userData, socketId, joinedAt}]. *)
Record ActiveUser : Type := mkActiveUser {
  au_id : option UserId;
  au_fullName : option string;
  au_socketId : SocketId;
  au_joinedAt : Date
}.

Module JsMap.
Section JsMap.
Context {V : Type}.

(** [Map.prototype.set]: an existing key keeps its position, a new key
    goes to the end. *)
Fixpoint set (k : string) (v : V) (m : list (string * V)) :
  list (string * V) :=
  match m with
  | [] => [(k, v)]
  | (k', v') :: m' =>
      if String.eqb k' k then (k, v) :: m' else (k', v') :: set k v m'
  end.

Fixpoint get (k : string) (m : list (string * V)) : option V :=
  match m with
  | [] => None
  | (k', v') :: m' => if String.eqb k' k then Some v' else get k m'
  end.

Fixpoint delete (k : string) (m : list (string * V)) : list (string * V) :=
  match m with
  | [] => []
  | (k', v') :: m' =>
      if String.eqb k' k then m' else (k', v') :: delete k m'
  end.

Definition has (k : string) (m : list (string * V)) : bool :=
  match get k m with
  | Some _ => true
  | None => false
  end.
End JsMap.
End JsMap.

(** [Array.from(activeUsers.entries()).find(([_, user]) =>
      user._id.toString() === targetUserId.toString())]:
    the first entry, in insertion order, of the target user.  Calling
    [toString] on [undefined] throws. *)
Fixpoint find_by_id_toString (m : list (SocketId * ActiveUser))
    (targetUserId : option UserId) :
    Completion (option (SocketId * ActiveUser)) :=
  match m with
  | [] => Normal None
  | (k, user) :: m' =>
      match au_id user, targetUserId with
      | Some i, Some t =>
          if String.eqb i t then Normal (Some (k, user))
          else find_by_id_toString m' targetUserId
      | _, _ => Throw
      end
  end.

(** [Array.from(activeUsers.entries()).find(([_, user]) =>
      user._id === id)]: the strict comparison never throws. *)
Fixpoint find_by_id (m : list (SocketId * ActiveUser)) (id : UserId) :
    option (SocketId * ActiveUser) :=
  match m with
  | [] => None
  | (k, user) :: m' =>
      match au_id user with
      | Some i => if String.eqb i id then Some (k, user) else find_by_id m' id
      | None => find_by_id m' id
      end
  end.

(** ** Events on the wire *)

Inductive Target : Type :=
| ToSocket (sid : SocketId)            (* socket.emit, firstSocket.emit *)
| ToRoom (room : option string)        (* io.to(room).emit *)
| BroadcastFrom (sid : SocketId).      (* socket.broadcast.emit *)

Inductive Role : Type :=
| waiter
| caller.

(** The peer a [roomRole] payload names: [otherSocketId], [otherUserName]
    and [otherUserLanguage]. *)
Record Peer : Type := mkPeer {
  otherSocketId : SocketId;
  otherUserName : string;
  otherUserLanguage : string
}.

(** The payload of [chat:message] and [chat:message:sent]. *)
Record ChatMessageEvent : Type := mkChatMessageEvent {
  c_id : MessageId;
  c_message : string;
  c_senderId : option UserId;
  c_senderName : option string;
  c_senderPic : option string;
  c_targetUserId : option UserId;
  c_timestamp : Date;
  c_conversationId : string;
  c_messageType : MessageType;
  c_fileUrl : option string;
  c_fileName : option string;
  c_fileSize : option N;
  c_replyTo : option MessageId;
  c_reactions : list Reaction
}.

(** One element of the [messages] array of [chat:history]. *)
Record HistoryItem : Type := mkHistoryItem {
  h_id : MessageId;
  h_message : string;
  h_senderId : UserId;
  h_senderName : string;
  h_senderPic : string;
  h_timestamp : Date;
  h_conversationId : string;
  h_messageType : MessageType;
  h_fileUrl : option string;
  h_fileName : option string;
  h_fileSize : option N;
  h_replyTo : option MessageId;
  h_reactions : list Reaction;
  h_isEdited : bool;
  h_editedAt : option Date;
  h_isDeleted : bool;
  h_deletedAt : option Date
}.

Inductive Payload : Type :=
| ErrorP (message : string)
| MeP (socketId : SocketId)
| UserOnline (userId : option UserId) (socketId : SocketId)
| UserOffline (userId : option UserId) (socketId : SocketId)
| ChatMessageP (m : ChatMessageEvent)
| ChatHistory (conversation : string) (messages : list HistoryItem)
| MessageReaction (messageId : MessageId) (rs : list Reaction)
    (userId : option UserId) (emoji : option string) (action : string)
| MessageEdited (messageId : MessageId) (newText : option string)
    (at_ : option Date) (userId : option UserId)
| MessageDeleted (messageId : MessageId) (at_ : option Date)
    (userId : option UserId)
| WebrtcOffer (offer callId : Opaque) (fromUserId : option UserId)
    (fromSocketId : SocketId)
| WebrtcAnswer (answer callId : Opaque) (fromSocketId : SocketId)
| WebrtcIceCandidate (candidate callId : Opaque) (fromSocketId : SocketId)
| CallEnded (callId : Opaque) (endedBy : SocketId)
| VideoCallInvitation (callerName meetingId callUrl : Opaque)
| RoomRole (role : Role) (peer : option Peer) (message : string)
| ExpectingCallFrom (socketId : SocketId) (userName : option string)
    (userLanguage : string)
| CallUser (signal from name : Opaque)
| CallAccepted (signal : Opaque)
| CallEndedAll.

Record Emit : Type := emit {
  e_to : Target;
  e_event : string;
  e_payload : Payload
}.

(** [socket.emit("error", { message })]: the generic error event. *)
Definition error_to (sid : SocketId) (message : string) : Emit :=
  emit (ToSocket sid) "error" (ErrorP message).

(** ** Server state *)

(** The properties the room handler stores on a socket object. *)
Record SocketObj : Type := mkSocketObj {
  videoUserName : option string;
  videoNativeLanguage : option string
}.

(** [activeUsers], the sockets and the rooms live in the memory of the Node
    process; [Messages] and [Users] are the MongoDB collections.  [running]
    tells whether the process is up. *)
Record Server : Type := mkServer {
  activeUsers : list (SocketId * ActiveUser);
  sockets : gmap string SocketObj;
  rooms : gmap string (list SocketId);
  Messages : list Message;
  Users : gmap string UserDoc;
  running : bool
}.

Definition with_activeUsers (st : Server) (au : list (SocketId * ActiveUser)) :
    Server :=
  mkServer au (sockets st) (rooms st) (Messages st) (Users st) (running st).

Definition with_sockets (st : Server) (s : gmap string SocketObj) : Server :=
  mkServer (activeUsers st) s (rooms st) (Messages st) (Users st) (running st).

Definition with_rooms (st : Server) (r : gmap string (list SocketId)) :
    Server :=
  mkServer (activeUsers st) (sockets st) r (Messages st) (Users st)
    (running st).

Definition with_Messages (st : Server) (ms : list Message) : Server :=
  mkServer (activeUsers st) (sockets st) (rooms st) ms (Users st)
    (running st).

(** The server right after start-up, over a given [User] collection. *)
Definition initial (users : gmap string UserDoc) : Server :=
  mkServer [] ∅ ∅ [] users true.

(** ** The Message model: create, findById, save, find/sort/limit *)

(** A fresh [_id]: larger than every id in the collection. *)
Definition fresh_id (db : list Message) : MessageId :=
  S (list_max (map _id db)).

(** What the [chat:message] handler passes to [Message.create]. *)
Record MessageData : Type := mkMessageData {
  md_senderId : option UserId;
  md_receiverId : option UserId;
  md_text : option string;
  md_conversationId : string;
  md_messageType : string;
  md_fileUrl : option string;
  md_fileName : option string;
  md_fileSize : option N;
  md_replyTo : option MessageId
}.

(** [Message.create]: schema validation ([required], [enum]), then the
    defaults and the timestamps.  [None] is a thrown validation error. *)
Definition Message_create (db : list Message) (now : Date) (d : MessageData) :
    option Message :=
  match md_senderId d, md_receiverId d, required_string (md_text d),
        required_string (Some (md_conversationId d)),
        parse_messageType (md_messageType d) with
  | Some s, Some r, Some t, Some c, Some ty =>
      Some (mkMessage (fresh_id db) s r t ty (md_fileUrl d) (md_fileName d)
              (md_fileSize d) (md_replyTo d) [] false c false None false None
              now now)
  | _, _, _, _, _ => None
  end.

Fixpoint findById (id : MessageId) (db : list Message) : option Message :=
  match db with
  | [] => None
  | m :: db' => if Nat.eqb (_id m) id then Some m else findById id db'
  end.

(** [message.save()] on a loaded document: the stored document with the
    same [_id] is replaced. *)
Fixpoint save (m : Message) (db : list Message) : list Message :=
  match db with
  | [] => []
  | x :: db' => if Nat.eqb (_id x) (_id m) then m :: db' else x :: save m db'
  end.

(** [.sort({ createdAt: -1 })]: newest first.  The store leaves the order of
    equal timestamps open; the model keeps them in insertion order. *)
Fixpoint insert_desc (m : Message) (l : list Message) : list Message :=
  match l with
  | [] => [m]
  | y :: l' =>
      if Nat.ltb (createdAt m) (createdAt y) then y :: insert_desc m l'
      else m :: y :: l'
  end.

Definition sort_createdAt_desc (l : list Message) : list Message :=
  foldr insert_desc [] l.

(** [.limit(n)]: at most [n] documents.  MongoDB documents a limit of 0 as
    equivalent to setting no limit, and Mongoose passes the number on as it
    is. *)
Definition limit {A : Type} (n : nat) (l : list A) : list A :=
  match n with
  | 0 => l
  | S _ => take n l
  end.

(** [Message.find({ conversationId })]. *)
Definition find_conversation (c : string) (db : list Message) : list Message :=
  List.filter (fun m => String.eqb (conversationId m) c) db.

(** Field updates the mutation handlers perform before [save]. *)
Definition set_reactions (m : Message) (rs : list Reaction) (now : Date) :
    Message :=
  mkMessage (_id m) (senderId m) (receiverId m) (text m) (messageType m)
    (fileUrl m) (fileName m) (fileSize m) (replyTo m) rs (isRead m)
    (conversationId m) (isEdited m) (editedAt m) (isDeleted m) (deletedAt m)
    (createdAt m) now.

Definition set_edited (m : Message) (newText : string) (now : Date) : Message :=
  mkMessage (_id m) (senderId m) (receiverId m) newText (messageType m)
    (fileUrl m) (fileName m) (fileSize m) (replyTo m) (reactions m) (isRead m)
    (conversationId m) true (Some now) (isDeleted m) (deletedAt m)
    (createdAt m) now.

Definition set_deleted (m : Message) (now : Date) : Message :=
  mkMessage (_id m) (senderId m) (receiverId m) "This message was deleted"
    (messageType m) (fileUrl m) (fileName m) (fileSize m) (replyTo m)
    (reactions m) (isRead m) (conversationId m) (isEdited m) (editedAt m)
    true (Some now) (createdAt m) now.

(** ** Handlers shared by both revisions

    A payload of [None] is an event sent without data: destructuring it
    throws inside the handler's [try]. *)

(** *** [user:join] *)

Definition on_user_join (st : Server) (sid : SocketId) (now : Date)
    (userData : option UserData) : Server * list Emit :=
  let entry :=
    mkActiveUser (userData ≫= ud_id) (userData ≫= ud_fullName) sid now in
  let st' := with_activeUsers st (JsMap.set sid entry (activeUsers st)) in
  match userData with
  | None =>
      (* [userData.fullName] throws after the entry was stored *)
      (st', [error_to sid "Failed to join"])
  | Some u =>
      (st', [emit (BroadcastFrom sid) "user:online" (UserOnline (ud_id u) sid)])
  end.

(** *** [chat:message] *)

Record ChatMessageData : Type := mkChatMessageData {
  cm_targetUserId : option UserId;
  cm_message : option string;
  cm_senderId : option UserId;
  cm_messageType : option string;
  cm_fileUrl : option string;
  cm_fileName : option string;
  cm_fileSize : option N;
  cm_replyTo : option MessageId
}.

(** [if (fileSize) messageData.fileSize = fileSize]. *)
Definition if_nonzero (x : option N) : option N :=
  match x with
  | Some n => if N.eqb n 0 then None else Some n
  | None => None
  end.

Definition messageData_of (d : ChatMessageData) : MessageData :=
  mkMessageData (cm_senderId d) (cm_targetUserId d) (cm_message d)
    (mkConversationId (cm_senderId d) (cm_targetUserId d))
    (or_default (cm_messageType d) "text")
    (if_truthy (cm_fileUrl d)) (if_truthy (cm_fileName d))
    (if_nonzero (cm_fileSize d)) (cm_replyTo d).

(** The [chat:message] payload for the recipient; [sender] is the
    populated [senderId]. *)
Definition received_event (saved : Message) (sender : UserDoc) :
    ChatMessageEvent :=
  mkChatMessageEvent (_id saved) (text saved) (Some (senderId saved))
    (Some (u_fullName sender)) (Some (u_profilePic sender)) None
    (createdAt saved) (conversationId saved) (messageType saved)
    (fileUrl saved) (fileName saved) (fileSize saved) (replyTo saved)
    (reactions saved).

(** The [chat:message:sent] payload for the sender. *)
Definition sent_event (saved : Message) (targetUserId : option UserId) :
    ChatMessageEvent :=
  mkChatMessageEvent (_id saved) (text saved) None None None targetUserId
    (createdAt saved) (conversationId saved) (messageType saved)
    (fileUrl saved) (fileName saved) (fileSize saved) (replyTo saved)
    (reactions saved).

Definition on_chat_message (st : Server) (sid : SocketId) (now : Date)
    (data : option ChatMessageData) : Server * list Emit :=
  let failed := error_to sid "Failed to send message" in
  match data with
  | None => (st, [failed])
  | Some d =>
      match Message_create (Messages st) now (messageData_of d) with
      | None => (st, [failed])
      | Some saved =>
          let st' := with_Messages st (Messages st ++ [saved]) in
          let sent :=
            emit (ToSocket sid) "chat:message:sent"
              (ChatMessageP (sent_event saved (cm_targetUserId d))) in
          match find_by_id_toString (activeUsers st) (cm_targetUserId d) with
          | Throw => (st', [failed])
          | Normal None => (st', [sent])
          | Normal (Some (targetSocketId, _)) =>
              match Users st !! senderId saved with
              | None =>
                  (* populate left [senderId] null: [senderId._id] throws *)
                  (st', [failed])
              | Some sender =>
                  (st', [emit (ToRoom (Some targetSocketId)) "chat:message"
                           (ChatMessageP (received_event saved sender));
                         sent])
              end
          end
      end
  end.

(** *** [chat:get-history] *)

Record HistoryRequest : Type := mkHistoryRequest {
  hr_targetUserId : option UserId;
  hr_userId : option UserId;
  hr_limit : option nat
}.

(** [msg.replyTo?._id] after [populate("replyTo")]: the id of the message
    replied to when it is stored, [undefined] otherwise. *)
Definition populated_replyTo (db : list Message) (m : Message) :
    option MessageId :=
  match replyTo m with
  | Some r => _id <$> findById r db
  | None => None
  end.

(** The callback of [messages.reverse().map(...)]; [None] when reading
    [msg.senderId._id] throws because [populate] found no sender. *)
Definition history_item (st : Server) (m : Message) : option HistoryItem :=
  match Users st !! senderId m with
  | None => None
  | Some sender =>
      Some (mkHistoryItem (_id m) (text m) (senderId m) (u_fullName sender)
              (u_profilePic sender) (createdAt m) (conversationId m)
              (messageType m) (fileUrl m) (fileName m) (fileSize m)
              (populated_replyTo (Messages st) m) (reactions m) (isEdited m)
              (editedAt m) (isDeleted m) (deletedAt m))
  end.

(** The documents the query of [chat:get-history] yields, and the order the
    handler sends them in. *)
Definition history_query (st : Server) (c : string) (n : nat) : list Message :=
  limit n (sort_createdAt_desc (find_conversation c (Messages st))).

Definition history (st : Server) (c : string) (n : nat) : list Message :=
  reverse (history_query st c n).

Definition on_chat_get_history (st : Server) (sid : SocketId)
    (data : option HistoryRequest) : Server * list Emit :=
  let failed := error_to sid "Failed to load chat history" in
  match data with
  | None => (st, [failed])
  | Some d =>
      let c := mkConversationId (hr_userId d) (hr_targetUserId d) in
      let n := default 50 (hr_limit d) in
      match mapM (history_item st) (history st c n) with
      | None => (st, [failed])
      | Some items =>
          (st, [emit (ToSocket sid) "chat:history" (ChatHistory c items)])
      end
  end.

(** *** The broadcast after a mutation: receiver first, then sender *)

Definition broadcast_mutation (st : Server) (m : Message) (event : string)
    (p : Payload) : list Emit :=
  let targetSocket := find_by_id (activeUsers st) (receiverId m) in
  let senderSocket := find_by_id (activeUsers st) (senderId m) in
  match targetSocket with
  | Some (t, _) => [emit (ToRoom (Some t)) event p]
  | None => []
  end ++
  match senderSocket with
  | Some (s, _) => [emit (ToRoom (Some s)) event p]
  | None => []
  end.

(** *** [message:react] *)

Record ReactData : Type := mkReactData {
  rd_messageId : option MessageId;
  rd_emoji : option string;
  rd_userId : option UserId
}.

(** [r.userId.toString() === userId && r.emoji === emoji]. *)
Definition same_reaction (userId : option UserId) (emoji : option string)
    (r : Reaction) : bool :=
  match userId, emoji with
  | Some u, Some e => String.eqb (r_userId r) u && String.eqb (r_emoji r) e
  | _, _ => false
  end.

(** Validation of a pushed sub-document [{ userId, emoji }]: both paths are
    [required]; [createdAt] takes its default. *)
Definition new_reaction (userId : option UserId) (emoji : option string)
    (now : Date) : option Reaction :=
  match userId, required_string emoji with
  | Some u, Some e => Some (mkReaction u e now)
  | _, _ => None
  end.

Definition on_message_react (st : Server) (sid : SocketId) (now : Date)
    (data : option ReactData) : Server * list Emit :=
  let failed := error_to sid "Failed to add reaction" in
  match data with
  | None => (st, [failed])
  | Some d =>
      match rd_messageId d ≫= (fun id => findById id (Messages st)) with
      | None => (st, [error_to sid "Message not found"])
      | Some message =>
          let matches := same_reaction (rd_userId d) (rd_emoji d) in
          let existingReaction := List.find matches (reactions message) in
          let updated :=
            match existingReaction with
            | Some _ =>
                Some (List.filter (fun r => negb (matches r))
                        (reactions message))
            | None =>
                (fun r => reactions message ++ [r]) <$>
                  new_reaction (rd_userId d) (rd_emoji d) now
            end in
          match updated with
          | None => (st, [failed])
          | Some rs =>
              let message' := set_reactions message rs now in
              let st' := with_Messages st (save message' (Messages st)) in
              (st', broadcast_mutation st message' "message:reaction"
                      (MessageReaction (_id message) rs (rd_userId d)
                         (rd_emoji d)
                         (match existingReaction with
                          | Some _ => "removed"
                          | None => "added"
                          end)))
          end
      end
  end.

(** *** [message:edit] *)

Record EditData : Type := mkEditData {
  ed_messageId : option MessageId;
  ed_newText : option string;
  ed_userId : option UserId
}.

Definition on_message_edit (st : Server) (sid : SocketId) (now : Date)
    (data : option EditData) : Server * list Emit :=
  let failed := error_to sid "Failed to edit message" in
  match data with
  | None => (st, [failed])
  | Some d =>
      match ed_messageId d ≫= (fun id => findById id (Messages st)) with
      | None => (st, [error_to sid "Message not found"])
      | Some message =>
          if negb (bool_decide (Some (senderId message) = ed_userId d)) then
            (st, [error_to sid "You can only edit your own messages"])
          else
            match required_string (ed_newText d) with
            | None => (st, [failed])     (* [save] rejects the empty text *)
            | Some newText =>
                let message' := set_edited message newText now in
                let st' := with_Messages st (save message' (Messages st)) in
                (st', broadcast_mutation st message' "message:edited"
                        (MessageEdited (_id message) (ed_newText d)
                           (editedAt message') (ed_userId d)))
            end
      end
  end.

(** *** [message:delete] *)

Record DeleteData : Type := mkDeleteData {
  dd_messageId : option MessageId;
  dd_userId : option UserId
}.

Definition on_message_delete (st : Server) (sid : SocketId) (now : Date)
    (data : option DeleteData) : Server * list Emit :=
  let failed := error_to sid "Failed to delete message" in
  match data with
  | None => (st, [failed])
  | Some d =>
      match dd_messageId d ≫= (fun id => findById id (Messages st)) with
      | None => (st, [error_to sid "Message not found"])
      | Some message =>
          if negb (bool_decide (Some (senderId message) = dd_userId d)) then
            (st, [error_to sid "You can only delete your own messages"])
          else
            let message' := set_deleted message now in
            let st' := with_Messages st (save message' (Messages st)) in
            (st', broadcast_mutation st message' "message:deleted"
                    (MessageDeleted (_id message) (deletedAt message')
                       (dd_userId d)))
      end
  end.

(** ** Signaling handlers of [server.js] *)

Record OfferData : Type := mkOfferData {
  of_targetUserId : option UserId;
  of_offer : Opaque;
  of_callId : Opaque
}.

Definition on_webrtc_offer (st : Server) (sid : SocketId)
    (data : option OfferData) : Server * list Emit :=
  let failed := error_to sid "Failed to send call offer" in
  match data with
  | None => (st, [failed])
  | Some d =>
      match find_by_id_toString (activeUsers st) (of_targetUserId d) with
      | Throw => (st, [failed])
      | Normal None => (st, [])
      | Normal (Some (targetSocketId, _)) =>
          (st, [emit (ToRoom (Some targetSocketId)) "webrtc:offer"
                  (WebrtcOffer (of_offer d) (of_callId d)
                     (JsMap.get sid (activeUsers st) ≫= au_id) sid)])
      end
  end.

Record AnswerData : Type := mkAnswerData {
  an_targetSocketId : option SocketId;
  an_answer : Opaque;
  an_callId : Opaque
}.

Definition on_webrtc_answer (st : Server) (sid : SocketId)
    (data : option AnswerData) : Server * list Emit :=
  match data with
  | None => (st, [error_to sid "Failed to send call answer"])
  | Some d =>
      (st, [emit (ToRoom (an_targetSocketId d)) "webrtc:answer"
              (WebrtcAnswer (an_answer d) (an_callId d) sid)])
  end.

Record IceCandidateData : Type := mkIceCandidateData {
  ic_targetSocketId : option SocketId;
  ic_candidate : Opaque;
  ic_callId : Opaque
}.

(** The [catch] of this handler only logs. *)
Definition on_webrtc_ice_candidate (st : Server) (sid : SocketId)
    (data : option IceCandidateData) : Server * list Emit :=
  match data with
  | None => (st, [])
  | Some d =>
      (st, [emit (ToRoom (ic_targetSocketId d)) "webrtc:ice-candidate"
              (WebrtcIceCandidate (ic_candidate d) (ic_callId d) sid)])
  end.

Record CallEndData : Type := mkCallEndData {
  ce_targetSocketId : option SocketId;
  ce_callId : Opaque
}.

(** The [catch] of this handler only logs. *)
Definition on_call_end (st : Server) (sid : SocketId)
    (data : option CallEndData) : Server * list Emit :=
  match data with
  | None => (st, [])
  | Some d =>
      (st, [emit (ToRoom (ce_targetSocketId d)) "call:ended"
              (CallEnded (ce_callId d) sid)])
  end.

(** ** Video-call handlers of the later revision

    [videoCallInvitation] and [joinVideoCallRoom] destructure their payload
    in the parameter list, before their [try] is entered.  The two handlers
    below are the bodies, run once the payload has been taken apart; what an
    event without payload does is in [dispatch]. *)

Record InvitationData : Type := mkInvitationData {
  iv_targetUserId : option UserId;
  iv_callerName : Opaque;
  iv_meetingId : Opaque;
  iv_callUrl : Opaque
}.

Definition on_videoCallInvitation (st : Server) (sid : SocketId)
    (d : InvitationData) : Server * list Emit :=
  match find_by_id_toString (activeUsers st) (iv_targetUserId d) with
  | Throw => (st, [])
  | Normal None => (st, [])
  | Normal (Some (targetSocketId, _)) =>
      (st, [emit (ToRoom (Some targetSocketId)) "videoCallInvitation"
              (VideoCallInvitation (iv_callerName d) (iv_meetingId d)
                 (iv_callUrl d))])
  end.

Record JoinRoomData : Type := mkJoinRoomData {
  jr_meetingId : string;
  jr_userName : option string;
  jr_nativeLanguage : option string
}.

(** [Set.prototype.add]. *)
Definition Set_add (x : SocketId) (s : list SocketId) : list SocketId :=
  if bool_decide (x ∈ s) then s else s ++ [x].

(** [socket.join(room)] on the in-memory adapter. *)
Definition socket_join (sid : SocketId) (room : string)
    (r : gmap string (list SocketId)) : gmap string (list SocketId) :=
  <[room := Set_add sid (default [] (r !! room))]> r.

(** The members of a room; a room that does not exist has none. *)
Definition room_members (st : Server) (room : string) : list SocketId :=
  default [] (rooms st !! room).

Definition on_joinVideoCallRoom (st : Server) (sid : SocketId)
    (d : JoinRoomData) : Server * list Emit :=
  let meetingId := jr_meetingId d in
  let st1 := with_rooms st (socket_join sid meetingId (rooms st)) in
  let roomSockets := rooms st1 !! meetingId in
  let roomSize := match roomSockets with Some s => length s | None => 0 end in
  let named :=
    with_sockets st1
      (<[sid := mkSocketObj (jr_userName d) (jr_nativeLanguage d)]>
         (sockets st1)) in
  if Nat.eqb roomSize 1 then
    (named, [emit (ToSocket sid) "roomRole"
               (RoomRole waiter None "Waiting for other participant...")])
  else if Nat.eqb roomSize 2 then
    let firstPersonSocket :=
      List.find (fun id => negb (String.eqb id sid)) (default [] roomSockets) in
    match firstPersonSocket with
    | Some first =>
        match sockets named !! first with
        | Some firstSocket =>
            (named,
             [emit (ToSocket sid) "roomRole"
                (RoomRole caller
                   (Some (mkPeer first
                            (or_default (videoUserName firstSocket)
                               "Other participant")
                            (or_default (videoNativeLanguage firstSocket)
                               "en-US")))
                   "Ready to start call");
              emit (ToSocket first) "expectingCallFrom"
                (ExpectingCallFrom sid (jr_userName d)
                   (or_default (jr_nativeLanguage d) "en-US"))])
        | None => (named, [])
        end
    | None => (named, [])
    end
  else (st1, []).

Record CallUserData : Type := mkCallUserData {
  cu_userToCall : option SocketId;
  cu_signalData : Opaque;
  cu_from : Opaque;
  cu_name : Opaque
}.

(** The [catch] of this handler only logs. *)
Definition on_callUser (st : Server) (sid : SocketId)
    (data : option CallUserData) : Server * list Emit :=
  match data with
  | None => (st, [])
  | Some d =>
      (st, [emit (ToRoom (cu_userToCall d)) "callUser"
              (CallUser (cu_signalData d) (cu_from d) (cu_name d))])
  end.

Record AnswerCallData : Type := mkAnswerCallData {
  ac_to : option SocketId;
  ac_signal : Opaque
}.

Definition on_answerCall (st : Server) (sid : SocketId)
    (data : option AnswerCallData) : Server * list Emit :=
  match data with
  | None => (st, [])
  | Some d => (st, [emit (ToRoom (ac_to d)) "callAccepted"
                      (CallAccepted (ac_signal d))])
  end.

Definition on_callEnded (st : Server) (sid : SocketId) : Server * list Emit :=
  (st, [emit (BroadcastFrom sid) "callEnded" CallEndedAll]).

(** ** Connection and disconnection *)

(** An exception no [try] catches, with no [uncaughtException] listener
    installed: the Node process exits.  Registry, sockets and rooms go with
    it; the collections stay. *)
Definition uncaught (st : Server) : Server :=
  mkServer [] ∅ ∅ (Messages st) (Users st) false.

Inductive Revision : Type :=
| server_js       (* backend/src/server.js *)
| video_rooms.    (* the revision with the video-call room handlers *)

(** Socket.io registers the socket and puts it in the room named by its own
    id; the later revision then sends the id to the client. *)
Definition on_connection (rev : Revision) (st : Server) (sid : SocketId) :
    Server * list Emit :=
  let st' :=
    with_rooms (with_sockets st (<[sid := mkSocketObj None None]> (sockets st)))
      (socket_join sid sid (rooms st)) in
  match rev with
  | server_js => (st', [])
  | video_rooms => (st', [emit (ToSocket sid) "me" (MeP sid)])
  end.

(** Socket.io takes a closing socket out of every room, dropping the rooms
    this empties. *)
Definition leave_all (sid : SocketId) (r : gmap string (list SocketId)) :
    gmap string (list SocketId) :=
  omap (fun members =>
          match List.filter (fun id => negb (String.eqb id sid)) members with
          | [] => None
          | l => Some l
          end) r.

(** The [disconnect] handler; [socket.roomId] is never assigned, so the
    later revision's room notice is never sent. *)
Definition on_disconnect (st : Server) (sid : SocketId) : Server * list Emit :=
  let st1 :=
    with_rooms (with_sockets st (base.delete sid (sockets st)))
      (leave_all sid (rooms st)) in
  match JsMap.get sid (activeUsers st1) with
  | Some user =>
      (with_activeUsers st1 (JsMap.delete sid (activeUsers st1)),
       [emit (BroadcastFrom sid) "user:offline" (UserOffline (au_id user) sid)])
  | None => (st1, [])
  end.

(** ** The event loop *)

Inductive ClientEvent : Type :=
| user_join (userData : option UserData)
| chat_message (data : option ChatMessageData)
| chat_get_history (data : option HistoryRequest)
| message_react (data : option ReactData)
| message_edit (data : option EditData)
| message_delete (data : option DeleteData)
| webrtc_offer (data : option OfferData)
| webrtc_answer (data : option AnswerData)
| webrtc_ice_candidate (data : option IceCandidateData)
| call_end (data : option CallEndData)
| videoCallInvitation (data : option InvitationData)
| joinVideoCallRoom (data : option JoinRoomData)
| callUser (data : option CallUserData)
| answerCall (data : option AnswerCallData)
| callEnded.

Inductive Input : Type :=
| Connection
| Disconnect
| Client (e : ClientEvent).

(** The listener a revision registers for an event; an event without a
    listener is ignored.  [videoCallInvitation] and [joinVideoCallRoom] sent
    without payload throw while their parameter is destructured, outside
    the [try]. *)
Definition dispatch (rev : Revision) (st : Server) (sid : SocketId)
    (now : Date) (e : ClientEvent) : Server * list Emit :=
  match e, rev with
  | user_join d, _ => on_user_join st sid now d
  | chat_message d, _ => on_chat_message st sid now d
  | chat_get_history d, _ => on_chat_get_history st sid d
  | message_react d, _ => on_message_react st sid now d
  | message_edit d, _ => on_message_edit st sid now d
  | message_delete d, _ => on_message_delete st sid now d
  | webrtc_offer d, server_js => on_webrtc_offer st sid d
  | webrtc_answer d, server_js => on_webrtc_answer st sid d
  | webrtc_ice_candidate d, server_js => on_webrtc_ice_candidate st sid d
  | call_end d, server_js => on_call_end st sid d
  | videoCallInvitation (Some d), video_rooms => on_videoCallInvitation st sid d
  | videoCallInvitation None, video_rooms => (uncaught st, [])
  | joinVideoCallRoom (Some d), video_rooms => on_joinVideoCallRoom st sid d
  | joinVideoCallRoom None, video_rooms => (uncaught st, [])
  | callUser d, video_rooms => on_callUser st sid d
  | answerCall d, video_rooms => on_answerCall st sid d
  | callEnded, video_rooms => on_callEnded st sid
  | _, _ => (st, [])
  end.

(** One turn of the event loop.  Socket ids are fresh per connection, only
    a connected socket sends events or disconnects, and a process that is
    down accepts no connection. *)
Definition handle (rev : Revision) (st : Server) (sid : SocketId) (now : Date)
    (i : Input) : Server * list Emit :=
  match i with
  | Connection =>
      if negb (running st) || bool_decide (is_Some (sockets st !! sid))
      then (st, [])
      else on_connection rev st sid
  | Disconnect =>
      if bool_decide (is_Some (sockets st !! sid)) then on_disconnect st sid
      else (st, [])
  | Client e =>
      if bool_decide (is_Some (sockets st !! sid)) then dispatch rev st sid now e
      else (st, [])
  end.

(** A run of the event loop from a state, collecting the emitted events. *)
Fixpoint run (rev : Revision) (st : Server)
    (trace : list (SocketId * Date * Input)) : Server * list Emit :=
  match trace with
  | [] => (st, [])
  | (sid, now, i) :: trace' =>
      let '(st1, out1) := handle rev st sid now i in
      let '(st2, out2) := run rev st1 trace' in
      (st2, out1 ++ out2)
  end.

(** * Vocabulary of the specification *)

(** The documents a [chat:message] event adds to the collection. *)
Definition stored_by (st : Server) (sid : SocketId) (now : Date)
    (d : ChatMessageData) : list Message :=
  drop (length (Messages st))
    (Messages (on_chat_message st sid now (Some d)).1).

(** The conversation a [chat:get-history] request addresses and the
    documents it reads, whenever it answers. *)
Definition history_answer (st : Server) (sid : SocketId) (d : HistoryRequest)
    (e : Emit) : Prop :=
  e = error_to sid "Failed to load chat history" ∨
  ∃ items,
    e = emit (ToSocket sid) "chat:history"
          (ChatHistory (mkConversationId (hr_userId d) (hr_targetUserId d))
             items) ∧
    mapM (history_item st)
      (history st (mkConversationId (hr_userId d) (hr_targetUserId d))
         (default 50 (hr_limit d))) = Some items.

(** ** Presence *)

(** [register(connectionId, profile)]: the state after [user:join]. *)
Definition register (st : Server) (c : SocketId) (now : Date)
    (profile : UserData) : Server :=
  (on_user_join st c now (Some profile)).1.

(** [lookup(userId)]: the connection the handlers route a user's events to,
    as [chat:message] finds it. *)
Definition lookup (st : Server) (u : UserId) : option SocketId :=
  match find_by_id_toString (activeUsers st) (Some u) with
  | Normal (Some (k, _)) => Some k
  | _ => None
  end.

(** Connection [c] is registered for user [u]. *)
Definition registered_for (st : Server) (c : SocketId) (u : UserId) : Prop :=
  ∃ e, (c, e) ∈ activeUsers st ∧ au_id e = Some u.

(** Last-writer-wins, in the words of the specification: registering [u]
    under a new connection [c2] replaces the connection [c1] it held. *)
Definition last_writer_wins (st : Server) (c1 c2 : SocketId) (u : UserId)
    (now : Date) (profile : UserData) : Prop :=
  registered_for st c1 u → c1 ≠ c2 → ud_id profile = Some u →
  lookup (register st c2 now profile) u = Some c2 ∧
  ¬ registered_for (register st c2 now profile) c1 u.

(** ** Call rooms *)

(** [joinRoom]: the state after [joinVideoCallRoom]. *)
Definition joinRoom (st : Server) (sid : SocketId) (d : JoinRoomData) : Server :=
  (on_joinVideoCallRoom st sid d).1.

(** The capacity the specification states for a room. *)
Definition within_capacity (st : Server) (room : string) : Prop :=
  length (room_members st room) ≤ 2.

(** Three connections and their joins of room ["m1"]. *)
Definition three_joiners : list (SocketId * Date * Input) :=
  [("s1", 1, Connection); ("s2", 2, Connection); ("s3", 3, Connection);
   ("s1", 4, Client (joinVideoCallRoom
                     (Some (mkJoinRoomData "m1" (Some "Ann") (Some "fr-FR")))));
   ("s2", 5, Client (joinVideoCallRoom
                     (Some (mkJoinRoomData "m1" (Some "Bob") (Some "de-DE")))));
   ("s3", 6, Client (joinVideoCallRoom
                     (Some (mkJoinRoomData "m1" (Some "Cy") (Some "es-ES")))))].

(** ** Message store *)

(** The drafts the specification lets [append] accept: a senderId, a
    receiverId, and text or file metadata. *)
Definition spec_accepts (d : ChatMessageData) : bool :=
  bool_decide (is_Some (cm_senderId d)) &&
  bool_decide (is_Some (cm_targetUserId d)) &&
  (truthy (cm_message d) || truthy (cm_fileUrl d) || truthy (cm_fileName d) ||
   bool_decide (is_Some (if_nonzero (cm_fileSize d)))).

(** The drafts that carry a senderId, a receiverId, a non-empty text and a
    message type that is absent or one of the five of the schema. *)
Definition has_required_fields (d : ChatMessageData) : bool :=
  bool_decide (is_Some (cm_senderId d)) &&
  bool_decide (is_Some (cm_targetUserId d)) &&
  truthy (cm_message d) &&
  bool_decide (is_Some (parse_messageType (or_default (cm_messageType d) "text"))).

(** [append(draft)]: the [chat:message] event. *)
Definition append (st : Server) (sid : SocketId) (now : Date)
    (d : ChatMessageData) : Server * list Emit :=
  on_chat_message st sid now (Some d).

(** [append], as the specification states it: an accepted draft is stored. *)
Definition append_as_specified (st : Server) (sid : SocketId) (now : Date)
    (d : ChatMessageData) : Prop :=
  spec_accepts d = true →
  ∃ m, Messages (append st sid now d).1 = Messages st ++ [m].

(** An image with its file metadata and no text. *)
Definition file_draft : ChatMessageData :=
  mkChatMessageData (Some "u2") None (Some "u1") (Some "image")
    (Some "data:image/png;base64,AAAA") (Some "cat.png") (Some 4%N) None.

(** A text draft from ["u1"] to ["u2"]. *)
Definition text_draft (t : string) : ChatMessageData :=
  mkChatMessageData (Some "u2") (Some t) (Some "u1") None None None None None.

(** [react(messageId, userId, emoji)]: the [message:react] event. *)
Definition react (st : Server) (sid : SocketId) (now : Date) (id : MessageId)
    (u : UserId) (e : string) : Server * list Emit :=
  on_message_react st sid now (Some (mkReactData (Some id) (Some e) (Some u))).

(** The reactions stored with a message. *)
Definition reactions_of (st : Server) (id : MessageId) :
    option (list Reaction) :=
  reactions <$> findById id (Messages st).

(** User [u] has reacted with emoji [e]. *)
Definition has_reaction (u : UserId) (e : string) (rs : list Reaction) : bool :=
  existsb (same_reaction (Some u) (Some e)) rs.

(** The reaction set: who reacted with what. *)
Definition reaction_keys (rs : list Reaction) : list (UserId * string) :=
  map (fun r => (r_userId r, r_emoji r)) rs.

(** Every event of [out] is a [message:reaction] that reports [action] for
    ([u], [e]) on message [id] together with the updated reactions [rs]. *)
Definition reports (id : MessageId) (u : UserId) (e : string)
    (rs : list Reaction) (action : string) (out : list Emit) : Prop :=
  Forall (fun ev => e_event ev = "message:reaction" ∧
                    e_payload ev = MessageReaction id rs (Some u) (Some e) action)
    out.

(** The connections an update of message [m] goes to: the one registered
    first for the receiver of [m], then the one registered first for its
    sender; a participant with no registered connection is skipped. *)
Definition connections_of (st : Server) (m : Message) : list SocketId :=
  omap (fun u => fst <$> find_by_id (activeUsers st) u)
    [receiverId m; senderId m].

(** [out] is exactly one [message:reaction] event for each connection of
    [to], in that order, each reporting [action] for ([u], [e]) on message
    [id] together with the updated reactions [rs]. *)
Definition reported_to (to : list SocketId) (id : MessageId) (u : UserId)
    (e : string) (rs : list Reaction) (action : string) (out : list Emit) :
    Prop :=
  out = map (fun k => emit (ToRoom (Some k)) "message:reaction"
                        (MessageReaction id rs (Some u) (Some e) action)) to.

(** [edit(messageId, userId, newText)]: the [message:edit] event. *)
Definition edit (st : Server) (sid : SocketId) (now : Date) (id : MessageId)
    (u : UserId) (newText : string) : Server * list Emit :=
  on_message_edit st sid now (Some (mkEditData (Some id) (Some newText) (Some u))).

(** An owner's edit, as the specification states it. *)
Definition owner_edit_succeeds (st : Server) (sid : SocketId) (now : Date)
    (id : MessageId) (u : UserId) (newText : string) : Prop :=
  ∀ m, findById id (Messages st) = Some m → u = senderId m →
  ∃ m', findById id (Messages (edit st sid now id u newText).1) = Some m' ∧
        text m' = newText ∧ isEdited m' = true ∧ editedAt m' = Some now.

(** A server with users ["u1"] and ["u2"] on record, both connected and
    joined, and one message ["hi"] from ["u1"] to ["u2"] stored at time 3. *)
Definition two_users : gmap string UserDoc :=
  <["u1" := mkUserDoc "Ann" "ann.png"]> (<["u2" := mkUserDoc "Bob" "bob.png"]> ∅).

Definition chatting : Server :=
  (run server_js (initial two_users)
     [("s1", 1, Connection); ("s2", 1, Connection);
      ("s1", 2, Client (user_join (Some (mkUserData (Some "u1") (Some "Ann")))));
      ("s2", 2, Client (user_join (Some (mkUserData (Some "u2") (Some "Bob")))));
      ("s1", 3, Client (chat_message (Some (text_draft "hi"))))]).1.

(** The message stored in [chatting]. *)
Definition hi_message : Message :=
  mkMessage 1 "u1" "u2" "hi" mt_text None None None None [] false "u1-u2"
    false None false None 3 3.

(** [chatting] a little later: ["u2"] answers at time 5, ["u1"] writes at
    time 7 and ["u2"] at time 9, so that the conversation has four
    messages. *)
Definition long_chat : Server :=
  (run server_js chatting
     [("s2", 5, Client (chat_message
                          (Some (mkChatMessageData (Some "u1") (Some "hello")
                                   (Some "u2") None None None None None))));
      ("s1", 7, Client (chat_message (Some (text_draft "how are you"))));
      ("s2", 9, Client (chat_message
                          (Some (mkChatMessageData (Some "u1") (Some "fine")
                                   (Some "u2") None None None None None))))]).1.

(** [history(conversationId, n)] returns at most [n] messages, as the
    specification states it. *)
Definition history_at_most (st : Server) (c : string) (n : nat) : Prop :=
  length (history st c n) ≤ n.

(** Ascending and descending order of creation time. *)
Definition older_first (a b : Message) : Prop := createdAt a ≤ createdAt b.
Definition newer_first (a b : Message) : Prop := createdAt b ≤ createdAt a.

(** A [chat:get-history] request for conversation [c] with limit [n]. *)
Definition asks_for (d : HistoryRequest) (c : string) (n : nat) : Prop :=
  mkConversationId (hr_userId d) (hr_targetUserId d) = c ∧
  default 50 (hr_limit d) = n.

(** The [chat:history] event that carries the documents [h], in order. *)
Definition answers_with (st : Server) (sid : SocketId) (d : HistoryRequest)
    (c : string) (h : list Message) : Prop :=
  ∃ items,
    on_chat_get_history st sid (Some d) =
      (st, [emit (ToSocket sid) "chat:history" (ChatHistory c items)]) ∧
    map h_id items = map _id h ∧
    map h_timestamp items = map createdAt h ∧
    map h_message items = map text h.

(** A step of the store as far as the read flags go: they stay as they
    were, or one unread message is added at the end. *)
Definition flags_kept (st st' : Server) : Prop :=
  map isRead (Messages st') = map isRead (Messages st) ∨
  map isRead (Messages st') = map isRead (Messages st) ++ [false].

(** ** Further vocabulary: the store *)

(** [tombstone(messageId, userId)]: the [message:delete] event. *)
Definition tombstone (st : Server) (sid : SocketId) (now : Date)
    (id : MessageId) (u : UserId) : Server * list Emit :=
  on_message_delete st sid now (Some (mkDeleteData (Some id) (Some u))).

(** What a mutation handler may have made of a stored message: one
    reaction pushed, the reactions of one (user, emoji) filtered out, an
    edit, or a tombstone. *)
Inductive mutated (m : Message) : Message → Prop :=
| mutated_react_add (u : UserId) (e : string) (now : Date) :
    has_reaction u e (reactions m) = false →
    mutated m (set_reactions m (reactions m ++ [mkReaction u e now]) now)
| mutated_react_remove (u : option UserId) (e : option string) (now : Date) :
    mutated m
      (set_reactions m
         (List.filter (fun r => negb (same_reaction u e r)) (reactions m)) now)
| mutated_edit (newText : string) (now : Date) :
    newText ≠ "" → mutated m (set_edited m newText now)
| mutated_delete (now : Date) :
    mutated m (set_deleted m now).

(** What one turn of the event loop may do to the collection. *)
Inductive store_step (db : list Message) : list Message → Prop :=
| store_same : store_step db db
| store_create (now : Date) (d : MessageData) (saved : Message) :
    Message_create db now d = Some saved → store_step db (db ++ [saved])
| store_save (m m' : Message) :
    findById (_id m) db = Some m → mutated m m' → store_step db (save m' db).

(** The fields of a stored message no handler writes, and the two flags
    no handler clears. *)
Definition persists (m m' : Message) : Prop :=
  _id m' = _id m ∧ senderId m' = senderId m ∧ receiverId m' = receiverId m ∧
  conversationId m' = conversationId m ∧ createdAt m' = createdAt m ∧
  messageType m' = messageType m ∧ replyTo m' = replyTo m ∧
  fileUrl m' = fileUrl m ∧ fileName m' = fileName m ∧
  fileSize m' = fileSize m ∧ isRead m' = isRead m ∧
  (isDeleted m = true → isDeleted m' = true) ∧
  (isEdited m = true → isEdited m' = true).

(** No two reactions of a message have the same user and emoji. *)
Definition reactions_unique (m : Message) : Prop :=
  NoDup (reaction_keys (reactions m)).

(** The stored message of [chatting], tombstoned at time 5. *)
Definition tombstoned : Server := (tombstone chatting "s1" 5 1 "u1").1.

(** ** Further vocabulary: presence and signaling *)

(** [unregister(connectionId)]: the state after [disconnect]. *)
Definition unregister (st : Server) (c : SocketId) : Server :=
  (on_disconnect st c).1.

(** The keys of the [activeUsers] Map are distinct, as in any Map. *)
Definition keys_distinct (st : Server) : Prop :=
  NoDup (map fst (activeUsers st)).

(** Every registered entry carries a user id. *)
Definition all_identified (st : Server) : Prop :=
  Forall (fun p => is_Some (au_id (snd p))) (activeUsers st).

(** The events of the signaling relay. *)
Definition is_signaling (e : ClientEvent) : bool :=
  match e with
  | webrtc_offer _ | webrtc_answer _ | webrtc_ice_candidate _ | call_end _
  | videoCallInvitation _ | callUser _ | answerCall _ | callEnded => true
  | _ => false
  end.

(** An offer for user [u]. *)
Definition offer_to (u : UserId) (offer callId : Opaque) : option OfferData :=
  Some (mkOfferData (Some u) offer callId).

(** The recipient of draft [d] is found online. *)
Definition recipient_online (st : Server) (d : ChatMessageData) : Prop :=
  ∃ k user,
    find_by_id_toString (activeUsers st) (cm_targetUserId d) =
      Normal (Some (k, user)).

(** Two connections joined as ["u1"] and ["u2"] on a server whose user
    collection is empty. *)
Definition undocumented : Server :=
  (run server_js (initial ∅)
     [("s1", 1, Connection); ("s2", 1, Connection);
      ("s1", 2, Client (user_join (Some (mkUserData (Some "u1") (Some "Ann")))));
      ("s2", 2, Client (user_join (Some (mkUserData (Some "u2") (Some "Bob")))))]).1.

(** * The client's socket service

    The [SocketService] class of the client: one socket at a time, a
    counter of reconnection attempts and the handlers the application
    registered.  A method is a function on the service's fields that also
    returns what the call does to the outside: the timer it sets, the event
    it sends, its return value.  A socket is its [connected] flag and its
    listeners in the order they were attached; [io(...)] makes a socket that
    is not yet connected and has no listeners. *)

Module SocketService.

(** The callbacks the class attaches to a socket. *)
Inductive Listener : Type :=
| join_on_connect (userData : option UserData)
    (* connect(): reset the counter, emit user:join, resolve *)
| reject_on_connect_error          (* connect(): reject the promise *)
| reconnect_on_disconnect
    (* if (reason === "io server disconnect") this.handleReconnection() *)
| log_error                        (* connect(): console.error *)
| reset_on_connect                 (* setupEventHandlers(): reset the counter *)
| log_connect_error                (* setupEventHandlers(): console.error *)
| wrappedHandler (handler : nat).  (* on(event, handler): the wrapped handler *)

Record Socket : Type := mkSocket {
  connected : bool;
  listeners : list (string * Listener)
}.

Record t : Type := mk {
  socket : option Socket;
  reconnectAttempts : nat;
  maxReconnectAttempts : nat;
  eventHandlers : list (string * Listener)
}.

(** [constructor()]. *)
Definition new : t := mk None 0 5 [].

(** [io(SOCKET_URL, {...})]. *)
Definition io : Socket := mkSocket false [].

(** [socket.on(event, listener)]. *)
Definition socket_on (event : string) (l : Listener) (s : Socket) : Socket :=
  mkSocket (connected s) (listeners s ++ [(event, l)]).

(** [socket.off(event)]: every listener of the event goes. *)
Definition socket_off (event : string) (s : Socket) : Socket :=
  mkSocket (connected s)
    (List.filter (fun p => negb (String.eqb (fst p) event)) (listeners s)).

(** [socket.removeAllListeners(); socket.close()]. *)
Definition socket_close (s : Socket) : Socket := mkSocket false [].

(** [setupEventHandlers()]: the stored handlers in the order of the Map,
    then the three basic listeners. *)
Definition setupEventHandlers (svc : t) : t :=
  match socket svc with
  | None => svc
  | Some s =>
      let s1 := foldl (fun s p => socket_on (fst p) (snd p) s) s
                  (eventHandlers svc) in
      let s2 := socket_on "connect" reset_on_connect s1 in
      let s3 := socket_on "disconnect" reconnect_on_disconnect s2 in
      let s4 := socket_on "connect_error" log_connect_error s3 in
      mk (Some s4) (reconnectAttempts svc) (maxReconnectAttempts svc)
        (eventHandlers svc)
  end.

(** [connect(userData)], up to the promise it returns: an existing connected
    socket is kept, otherwise a new socket is made and wired. *)
Definition connect (userData : option UserData) (svc : t) : t :=
  match socket svc with
  | Some s =>
      if connected s then svc
      else
        setupEventHandlers
          (mk (Some (socket_on "error" log_error
                       (socket_on "disconnect" reconnect_on_disconnect
                          (socket_on "connect_error" reject_on_connect_error
                             (socket_on "connect" (join_on_connect userData)
                                io)))))
             (reconnectAttempts svc) (maxReconnectAttempts svc)
             (eventHandlers svc))
  | None =>
      setupEventHandlers
        (mk (Some (socket_on "error" log_error
                     (socket_on "disconnect" reconnect_on_disconnect
                        (socket_on "connect_error" reject_on_connect_error
                           (socket_on "connect" (join_on_connect userData)
                              io)))))
           (reconnectAttempts svc) (maxReconnectAttempts svc)
           (eventHandlers svc))
  end.

(** [handleReconnection()]: the new fields and the delay, in milliseconds,
    of the timer it sets, if it sets one. *)
Definition handleReconnection (svc : t) : t * option N :=
  if Nat.ltb (reconnectAttempts svc) (maxReconnectAttempts svc) then
    let attempts := S (reconnectAttempts svc) in
    (mk (socket_close <$> socket svc) attempts (maxReconnectAttempts svc)
       (eventHandlers svc),
     Some (2 ^ N.of_nat attempts * 1000)%N)
  else (svc, None).

(** The callback of that timer: a new socket, wired with
    [setupEventHandlers]. *)
Definition reconnect_timer (svc : t) : t :=
  setupEventHandlers
    (mk (Some io) (reconnectAttempts svc) (maxReconnectAttempts svc)
       (eventHandlers svc)).

(** [disconnect()]. *)
Definition disconnect (svc : t) : t :=
  match socket svc with
  | Some _ =>
      mk None (reconnectAttempts svc) (maxReconnectAttempts svc)
        (eventHandlers svc)
  | None => svc
  end.

(** [on(event, handler)]. *)
Definition on (event : string) (handler : nat) (svc : t) : t :=
  mk (socket_on event (wrappedHandler handler) <$> socket svc)
    (reconnectAttempts svc) (maxReconnectAttempts svc)
    (JsMap.set event (wrappedHandler handler) (eventHandlers svc)).

(** [off(event)]. *)
Definition off (event : string) (svc : t) : t :=
  mk (socket_off event <$> socket svc) (reconnectAttempts svc)
    (maxReconnectAttempts svc) (JsMap.delete event (eventHandlers svc)).

(** [isConnected()], as a boolean. *)
Definition isConnected (svc : t) : bool :=
  match socket svc with
  | Some s => connected s
  | None => false
  end.

(** [getConnectionStatus()]. *)
Definition getConnectionStatus (svc : t) : string :=
  match socket svc with
  | None => "disconnected"
  | Some s => if connected s then "connected" else "connecting"
  end.

(** [emit(event, data)]: the return value and the event sent, if any. *)
Definition emit (event : string) (data : Opaque) (svc : t) :
    bool * option (string * Opaque) :=
  if isConnected svc then (true, Some (event, data)) else (false, None).

(** The listeners that set [reconnectAttempts] to 0. *)
Definition runs_on_connect (l : Listener) : bool :=
  match l with
  | join_on_connect _ | reset_on_connect => true
  | _ => false
  end.

(** The [user:join] payloads the ["connect"] listeners of a socket send. *)
Definition joins_sent (s : Socket) : list (option UserData) :=
  omap (fun p =>
          match p with
          | (event, join_on_connect userData) =>
              if String.eqb event "connect" then Some userData else None
          | _ => None
          end) (listeners s).

(** Some ["connect"] listener of the socket resets the counter. *)
Definition resets_counter (s : Socket) : bool :=
  existsb (fun p => String.eqb (fst p) "connect" && runs_on_connect (snd p))
    (listeners s).

(** The socket reports that it is connected: the flag is set and the
    ["connect"] listeners of the class run.  The result is the service with
    the counter as they leave it, and the [user:join] payloads sent.  (What
    the application's own handlers do is outside the class.) *)
Definition socket_connects (svc : t) : t * list (option UserData) :=
  match socket svc with
  | None => (svc, [])
  | Some s =>
      (mk (Some (mkSocket true (listeners s)))
         (if resets_counter s then 0 else reconnectAttempts svc)
         (maxReconnectAttempts svc) (eventHandlers svc),
       joins_sent s)
  end.

(** The delays of [k] reconnections in a row, each followed by its timer
    and none by a successful connect. *)
Fixpoint retries (k : nat) (svc : t) : t * list N :=
  match k with
  | 0 => (svc, [])
  | S k' =>
      let '(svc1, delay) := handleReconnection svc in
      let '(svc2, delays) := retries k' (reconnect_timer svc1) in
      (svc2, match delay with Some d => d :: delays | None => delays end)
  end.

(** The handlers the application registered are wrapped handlers. *)
Definition only_wrapped (svc : t) : Prop :=
  Forall (fun p => ∃ h, snd p = wrappedHandler h) (eventHandlers svc).

(** The events [setupEventHandlers] listens to on its own account. *)
Definition basic_event (event : string) : bool :=
  String.eqb event "connect" || String.eqb event "disconnect" ||
  String.eqb event "connect_error".

(** A socket has no listener for an event. *)
Definition deaf_to (event : string) (svc : t) : Prop :=
  ∀ s, socket svc = Some s → ∀ p, p ∈ listeners s → fst p ≠ event.

End SocketService.

(** * The chat page's reaction helpers *)

(** [getReactionCount(reactions, emoji)]. *)
Definition getReactionCount (rs : list Reaction) (emoji : string) : nat :=
  length (List.filter (fun r => String.eqb (r_emoji r) emoji) rs).

(** [hasUserReacted(reactions, emoji, userId)]. *)
Definition hasUserReacted (rs : list Reaction) (emoji : string)
    (userId : UserId) : bool :=
  existsb (fun r => String.eqb (r_emoji r) emoji &&
                    String.eqb (r_userId r) userId) rs.

(** * Properties *)

(** ** Strings *)

Lemma string_eqb_refl (s : string) : String.eqb s s = true.
Proof. by apply String.eqb_eq. Qed.

Lemma string_eqb_false (s t : string) : s ≠ t → String.eqb s t = false.
Proof. by intros H; apply String.eqb_neq. Qed.

Lemma string_ltb_asym (s t : string) :
  String.ltb s t = true → String.ltb t s = false.
Proof.
  unfold String.ltb. rewrite (String.compare_antisym t s).
  by destruct (String.compare s t).
Qed.

Lemma string_ltb_total (s t : string) :
  String.ltb s t = false → String.ltb t s = false → s = t.
Proof.
  unfold String.ltb. rewrite (String.compare_antisym t s).
  destruct (String.compare s t) eqn:E; try done.
  intros _ _. by apply String.compare_eq_iff.
Qed.

Lemma required_string_Some (x : option string) (s : string) :
  required_string x = Some s ↔ x = Some s ∧ s ≠ "".
Proof.
  destruct x as [t|]; simpl; [|by split; [|intros [? _]]].
  destruct (String.eqb_spec t "") as [->|Hne].
  - split; [done|]. by intros [[= <-] ?].
  - split; [by intros [= <-]|]. by intros [[= <-] _].
Qed.

Lemma required_string_present (s : string) :
  s ≠ "" → required_string (Some s) = Some s.
Proof. intros H. by apply required_string_Some. Qed.

(** ** Conversation ids *)

Lemma mkConversationId_comm (a b : option UserId) :
  mkConversationId a b = mkConversationId b a.
Proof.
  unfold mkConversationId. destruct a as [s|], b as [t|]; simpl; try done.
  destruct (String.ltb t s) eqn:Hts.
  - by rewrite (string_ltb_asym _ _ Hts).
  - destruct (String.ltb s t) eqn:Hst; [done|].
    by rewrite (string_ltb_total _ _ Hst Hts).
Qed.

Lemma Message_create_fields (db : list Message) (now : Date) (d : MessageData)
    (m : Message) :
  Message_create db now d = Some m →
  md_senderId d = Some (senderId m) ∧ md_receiverId d = Some (receiverId m) ∧
  required_string (md_text d) = Some (text m) ∧
  conversationId m = md_conversationId d ∧
  parse_messageType (md_messageType d) = Some (messageType m) ∧
  fileUrl m = md_fileUrl d ∧ fileName m = md_fileName d ∧
  fileSize m = md_fileSize d ∧ replyTo m = md_replyTo d ∧
  _id m = fresh_id db ∧ reactions m = [] ∧ isRead m = false ∧
  isEdited m = false ∧ editedAt m = None ∧ isDeleted m = false ∧
  deletedAt m = None ∧ createdAt m = now ∧ updatedAt m = now.
Proof.
  unfold Message_create. intros H.
  destruct (md_senderId d), (md_receiverId d), (required_string (md_text d)),
    (required_string (Some (md_conversationId d))) eqn:Hc,
    (parse_messageType (md_messageType d)); simplify_eq.
  apply required_string_Some in Hc as [? _]. by simplify_eq.
Qed.

(** What [chat:message] does to the collection: nothing, or one document
    appended. *)
Lemma on_chat_message_Messages (st : Server) (sid : SocketId) (now : Date)
    (d : ChatMessageData) :
  match Message_create (Messages st) now (messageData_of d) with
  | Some saved =>
      Messages (on_chat_message st sid now (Some d)).1 = Messages st ++ [saved]
  | None =>
      on_chat_message st sid now (Some d) =
        (st, [error_to sid "Failed to send message"])
  end.
Proof.
  unfold on_chat_message.
  destruct (Message_create _ _ _) as [saved|]; [|done].
  destruct (find_by_id_toString _ _) as [[[? ?]|]|]; try done.
  by destruct (Users st !! senderId saved).
Qed.

Lemma stored_by_create (st : Server) (sid : SocketId) (now : Date)
    (d : ChatMessageData) :
  stored_by st sid now d =
    match Message_create (Messages st) now (messageData_of d) with
    | Some saved => [saved]
    | None => []
    end.
Proof.
  unfold stored_by. generalize (on_chat_message_Messages st sid now d).
  destruct (Message_create _ _ _) as [saved|]; intros ->.
  - by rewrite drop_app_length.
  - by rewrite drop_all.
Qed.

(** A message stored for a draft from [s] to [t] lies in the conversation
    a history request addresses, whichever of the two asks. *)
Lemma sent_message_in_both_histories (st : Server) (sid : SocketId)
    (now : Date) (d : ChatMessageData) (m : Message) :
  Message_create (Messages st) now (messageData_of d) = Some m →
  let st' := (on_chat_message st sid now (Some d)).1 in
  m ∈ find_conversation
        (mkConversationId (cm_senderId d) (cm_targetUserId d)) (Messages st') ∧
  m ∈ find_conversation
        (mkConversationId (cm_targetUserId d) (cm_senderId d)) (Messages st').
Proof.
  intros Hm st'. subst st'.
  generalize (on_chat_message_Messages st sid now d). rewrite Hm. intros ->.
  apply Message_create_fields in Hm as (_ & _ & _ & Hc & _). simpl in Hc.
  rewrite <- (mkConversationId_comm (cm_senderId d)).
  assert (m ∈ find_conversation
                (mkConversationId (cm_senderId d) (cm_targetUserId d))
                (Messages st ++ [m])); [|done].
  apply list_elem_of_In, List.filter_In. split.
  - apply list_elem_of_In, elem_of_app. right. left.
  - rewrite Hc. apply string_eqb_refl.
Qed.

(** C2. Deriving the conversation id is commutative in its two participant
    identifiers, and both places that address a conversation use this one
    derivation: every message [chat:message] stores carries the id derived
    from (senderId, targetUserId), and [chat:get-history] reads and reports
    the conversation derived from (userId, targetUserId). *)
Theorem conversation_id_commutative_everywhere :
  (∀ a b : option UserId, mkConversationId a b = mkConversationId b a) ∧
  (∀ st sid now d,
     Forall (fun m => conversationId m =
                        mkConversationId (cm_senderId d) (cm_targetUserId d))
       (stored_by st sid now d)) ∧
  (∀ st sid d,
     (on_chat_get_history st sid (Some d)).1 = st ∧
     Forall (history_answer st sid d) (on_chat_get_history st sid (Some d)).2).
Proof.
  split; [exact mkConversationId_comm|]. split.
  - intros st sid now d. rewrite stored_by_create.
    destruct (Message_create _ _ _) as [saved|] eqn:E; [|constructor].
    apply Message_create_fields in E. repeat constructor. by destruct_and!.
  - intros st sid d. unfold on_chat_get_history.
    destruct (mapM _ _) as [items|] eqn:E; simpl; (split; [done|]);
      apply Forall_singleton.
    + right. by exists items.
    + by left.
Qed.

(** ** Presence registry *)

Lemma JsMap_set_fresh {V : Type} (k : string) (v : V) (m : list (string * V)) :
  JsMap.has k m = false → JsMap.set k v m = m ++ [(k, v)].
Proof.
  unfold JsMap.has. induction m as [|[k' v'] m IH]; simpl; [done|].
  destruct (String.eqb k' k); [done|]. intros H. by rewrite IH.
Qed.

Lemma find_by_id_toString_app (m l : list (SocketId * ActiveUser))
    (t : option UserId) (x : SocketId * ActiveUser) :
  find_by_id_toString m t = Normal (Some x) →
  find_by_id_toString (m ++ l) t = Normal (Some x).
Proof.
  induction m as [|[k user] m IH]; simpl; [done|].
  destruct (au_id user) as [i|], t as [t|]; try done.
  by destruct (String.eqb i t).
Qed.

Lemma find_by_id_toString_elem (m : list (SocketId * ActiveUser))
    (t : option UserId) (k : SocketId) (user : ActiveUser) :
  find_by_id_toString m t = Normal (Some (k, user)) →
  (k, user) ∈ m ∧ au_id user = t.
Proof.
  induction m as [|[k' user'] m IH]; simpl; [done|].
  destruct (au_id user') as [i|] eqn:Hi, t as [t|]; try done.
  destruct (String.eqb_spec i t) as [->|Hne].
  - intros [= -> ->]. split; [left|done].
  - intros H. destruct (IH H) as [? ?]. split; [by right|done].
Qed.

Lemma activeUsers_register (st : Server) (c : SocketId) (now : Date)
    (profile : UserData) :
  activeUsers (register st c now profile) =
    JsMap.set c (mkActiveUser (ud_id profile) (ud_fullName profile) c now)
      (activeUsers st).
Proof. done. Qed.

Lemma find_by_id_app (m l : list (SocketId * ActiveUser)) (id : UserId)
    (x : SocketId * ActiveUser) :
  find_by_id m id = Some x → find_by_id (m ++ l) id = Some x.
Proof.
  induction m as [|[k user] m IH]; simpl; [done|].
  destruct (au_id user) as [i|]; [|done]. by destruct (String.eqb i id).
Qed.

(** The lookup of the mutation broadcasts is as stable: a later
    registration under a new connection does not change what it finds. *)
Lemma find_by_id_register (st : Server) (c2 : SocketId) (now : Date)
    (profile : UserData) (id : UserId) (x : SocketId * ActiveUser) :
  find_by_id (activeUsers st) id = Some x →
  JsMap.has c2 (activeUsers st) = false →
  find_by_id (activeUsers (register st c2 now profile)) id = Some x.
Proof.
  intros Hfind Hnew. rewrite activeUsers_register, (JsMap_set_fresh _ _ _ Hnew).
  by apply find_by_id_app.
Qed.

(** C1 (as amended). Presence is keyed by connection, not by user: when a
    lookup of user [u] yields connection [c1] and [u] registers under a new
    connection [c2], the entry of [c1] stays, [c2] is registered next to it,
    and a lookup of [u] afterwards still yields [c1]. *)
Theorem register_keeps_first_connection (st : Server) (c1 c2 : SocketId)
    (u : UserId) (now : Date) (profile : UserData) :
  lookup st u = Some c1 →
  JsMap.has c2 (activeUsers st) = false →
  ud_id profile = Some u →
  lookup (register st c2 now profile) u = Some c1 ∧
  registered_for (register st c2 now profile) c1 u ∧
  registered_for (register st c2 now profile) c2 u.
Proof.
  unfold lookup, registered_for. intros Hlook Hnew Hid.
  rewrite activeUsers_register, (JsMap_set_fresh _ _ _ Hnew).
  destruct (find_by_id_toString (activeUsers st) (Some u))
    as [[[k user]|]|] eqn:Hfind; simplify_eq.
  rewrite (find_by_id_toString_app _ _ _ _ Hfind).
  apply find_by_id_toString_elem in Hfind as [Hin Hu].
  split_and!; [done| |].
  - exists user. split; [|done]. apply elem_of_app. by left.
  - eexists. split; [apply elem_of_app; right; by left|done].
Qed.

(** Two registrations of user ["u"], first under ["c1"], then under ["c2"]. *)
Lemma register_keeps_first_connection_witness :
  let st := register (initial ∅) "c1" 1 (mkUserData (Some "u") (Some "U")) in
  lookup (register st "c2" 2 (mkUserData (Some "u") (Some "U"))) "u"
    = Some "c1" ∧
  registered_for (register st "c2" 2 (mkUserData (Some "u") (Some "U"))) "c1" "u" ∧
  registered_for (register st "c2" 2 (mkUserData (Some "u") (Some "U"))) "c2" "u".
Proof.
  apply (register_keeps_first_connection _ "c1" "c2" "u" 2); reflexivity.
Defined.

(** C1 (as stated) fails: after ["u"] registered under ["c1"] and then under
    ["c2"], the lookup yields ["c1"], and ["c1"] is still registered. *)
Lemma last_writer_wins_counterexample :
  ¬ last_writer_wins
      (register (initial ∅) "c1" 1 (mkUserData (Some "u") (Some "U")))
      "c1" "c2" "u" 2 (mkUserData (Some "u") (Some "U")).
Proof.
  intros H. destruct H as [H _]; [| done | done | discriminate H].
  eexists. split; [by left|done].
Qed.

(** ** Call rooms *)

Lemma rooms_joinRoom (st : Server) (sid : SocketId) (d : JoinRoomData) :
  rooms (joinRoom st sid d) = socket_join sid (jr_meetingId d) (rooms st).
Proof.
  unfold joinRoom, on_joinVideoCallRoom.
  repeat (case_match; simpl; try done).
Qed.

Lemma room_members_joinRoom (st : Server) (sid : SocketId) (d : JoinRoomData) :
  room_members (joinRoom st sid d) (jr_meetingId d) =
    Set_add sid (room_members st (jr_meetingId d)).
Proof.
  unfold room_members. rewrite rooms_joinRoom. unfold socket_join.
  by rewrite lookup_insert_eq.
Qed.

Lemma room_members_joinRoom_other (st : Server) (sid : SocketId)
    (d : JoinRoomData) (room : string) :
  room ≠ jr_meetingId d →
  room_members (joinRoom st sid d) room = room_members st room.
Proof.
  intros Hne. unfold room_members. rewrite rooms_joinRoom. unfold socket_join.
  by rewrite lookup_insert_ne.
Qed.

(** C3 (as amended). A room has no capacity: a join by a connection that is
    not yet a member always adds it, so the room has one member more than
    before whatever its size, and no other room changes; a join that finds
    two or more members assigns no role and sends nothing. *)
Theorem joinRoom_adds_without_bound (st : Server) (sid : SocketId)
    (d : JoinRoomData) :
  sid ∉ room_members st (jr_meetingId d) →
  room_members (joinRoom st sid d) (jr_meetingId d) =
    room_members st (jr_meetingId d) ++ [sid] ∧
  length (room_members (joinRoom st sid d) (jr_meetingId d)) =
    S (length (room_members st (jr_meetingId d))) ∧
  (∀ room, room ≠ jr_meetingId d →
     room_members (joinRoom st sid d) room = room_members st room) ∧
  (2 ≤ length (room_members st (jr_meetingId d)) →
     (on_joinVideoCallRoom st sid d).2 = []).
Proof.
  intros Hnew.
  assert (room_members (joinRoom st sid d) (jr_meetingId d) =
            room_members st (jr_meetingId d) ++ [sid]) as Hadd.
  { rewrite room_members_joinRoom. unfold Set_add.
    by rewrite bool_decide_eq_false_2. }
  split_and!; [done| |by intros; apply room_members_joinRoom_other|].
  - rewrite Hadd, length_app. simpl. lia.
  - intros Hfull. unfold on_joinVideoCallRoom. cbv zeta. simpl rooms.
    assert (socket_join sid (jr_meetingId d) (rooms st) !! jr_meetingId d
            = Some (room_members st (jr_meetingId d) ++ [sid])) as Hl.
    { unfold socket_join. rewrite lookup_insert_eq. unfold Set_add.
      by rewrite bool_decide_eq_false_2. }
    rewrite !Hl, length_app. simpl.
    destruct (length (room_members st (jr_meetingId d))) as [|[|n]]; [lia..|].
    by replace (S (S n) + 1) with (S (S (S n))) by lia.
Qed.

(** A third connection joins a room that already has two members. *)
Lemma joinRoom_adds_without_bound_witness :
  let st := (run video_rooms (initial ∅) (take 5 three_joiners)).1 in
  let d := mkJoinRoomData "m1" (Some "Cy") (Some "es-ES") in
  room_members (joinRoom st "s3" d) "m1" = room_members st "m1" ++ ["s3"] ∧
  length (room_members (joinRoom st "s3" d) "m1") =
    S (length (room_members st "m1")) ∧
  (∀ room, room ≠ "m1" →
     room_members (joinRoom st "s3" d) room = room_members st room) ∧
  (2 ≤ length (room_members st "m1") →
     (on_joinVideoCallRoom st "s3" d).2 = []).
Proof.
  apply (joinRoom_adds_without_bound _ "s3"
           (mkJoinRoomData "m1" (Some "Cy") (Some "es-ES"))).
  apply (bool_decide_eq_false_1 ("s3" ∈ ["s1"; "s2"])). reflexivity.
Defined.

(** C3 (as stated) fails: three joins leave room ["m1"] with three members. *)
Lemma room_capacity_counterexample :
  ¬ within_capacity (run video_rooms (initial ∅) three_joiners).1 "m1".
Proof. unfold within_capacity. vm_compute. lia. Qed.

(** ** Message store: append *)

Lemma truthy_required (x : option string) :
  truthy x = bool_decide (is_Some (required_string x)).
Proof. destruct x as [s|]; simpl; [|done]. by destruct (String.eqb s ""). Qed.

Lemma fresh_id_fresh (db : list Message) (m : Message) :
  m ∈ db → _id m < fresh_id db.
Proof.
  intros Hin. unfold fresh_id.
  assert (Forall (fun k => k ≤ list_max (map _id db)) (map _id db)) as H
    by by apply list_max_le.
  rewrite Forall_forall in H. specialize (H (_id m)).
  assert (_id m ≤ list_max (map _id db)); [|lia].
  apply H. by apply (list_elem_of_fmap_2 _id).
Qed.

Lemma mkConversationId_required (a b : option UserId) :
  required_string (Some (mkConversationId a b)) = Some (mkConversationId a b).
Proof.
  apply required_string_present. unfold mkConversationId.
  destruct a as [s|], b as [t|]; simpl; try done.
  - destruct (String.ltb t s); [by destruct t|by destruct s].
  - by destruct s.
  - by destruct t.
Qed.

Lemma has_required_fields_create (st : Server) (now : Date)
    (d : ChatMessageData) :
  has_required_fields d =
    bool_decide (is_Some (Message_create (Messages st) now (messageData_of d))).
Proof.
  unfold has_required_fields, Message_create, messageData_of.
  cbn [md_senderId md_receiverId md_text md_conversationId md_messageType].
  rewrite mkConversationId_required, truthy_required.
  destruct (cm_senderId d), (cm_targetUserId d),
    (required_string (cm_message d)); try done.
  by destruct (parse_messageType _).
Qed.

(** C4 (as amended). Appending a message succeeds when the draft has a
    senderId, a receiverId, a non-empty text and a message type that is
    absent or one of the five allowed ones: the message is stored at the end
    of the collection with these fields, a fresh id and the current time.
    Otherwise nothing is stored and the sender gets the one generic error
    event; in particular a draft without text is rejected, with or without
    file metadata. *)
Theorem append_requires_text (st : Server) (sid : SocketId) (now : Date)
    (d : ChatMessageData) :
  (has_required_fields d = true →
     ∃ m, Messages (append st sid now d).1 = Messages st ++ [m] ∧
          cm_senderId d = Some (senderId m) ∧
          cm_targetUserId d = Some (receiverId m) ∧
          cm_message d = Some (text m) ∧
          createdAt m = now ∧
          ∀ m0, m0 ∈ Messages st → _id m0 ≠ _id m) ∧
  (has_required_fields d = false →
     append st sid now d = (st, [error_to sid "Failed to send message"])) ∧
  (truthy (cm_message d) = false →
     append st sid now d = (st, [error_to sid "Failed to send message"])).
Proof.
  assert (has_required_fields d = false →
          append st sid now d = (st, [error_to sid "Failed to send message"]))
    as Hrej.
  { rewrite (has_required_fields_create st now). intros H.
    apply bool_decide_eq_false in H.
    generalize (on_chat_message_Messages st sid now d).
    destruct (Message_create _ _ _); [|done]. by destruct H. }
  split_and!; [|done|].
  - rewrite (has_required_fields_create st now). intros H.
    apply bool_decide_eq_true in H as [m Hm].
    generalize (on_chat_message_Messages st sid now d). rewrite Hm.
    intros Hst. exists m. split; [done|].
    apply Message_create_fields in Hm
      as (Hs & Hr & Ht & _ & _ & _ & _ & _ & _ & Hid & _ & _ & _ & _ & _ & _
          & Hc & _).
    simpl in Hs, Hr, Ht. split_and!; try done.
    + by apply required_string_Some in Ht as [? _].
    + intros m0 Hin Heq. apply fresh_id_fresh in Hin. lia.
  - intros Hno. apply Hrej. unfold has_required_fields. rewrite Hno.
    by rewrite andb_false_r.
Qed.

(** A text message from ["u1"] to ["u2"], and an image without text. *)
Lemma append_requires_text_witness :
  (∃ m, Messages (append chatting "s1" 9 (text_draft "hello")).1 =
          Messages chatting ++ [m] ∧
        cm_senderId (text_draft "hello") = Some (senderId m) ∧
        cm_targetUserId (text_draft "hello") = Some (receiverId m) ∧
        cm_message (text_draft "hello") = Some (text m) ∧
        createdAt m = 9 ∧
        ∀ m0, m0 ∈ Messages chatting → _id m0 ≠ _id m) ∧
  append chatting "s1" 9 file_draft =
    (chatting, [error_to "s1" "Failed to send message"]).
Proof.
  split.
  - apply (append_requires_text chatting "s1" 9 (text_draft "hello")).
    reflexivity.
  - apply (append_requires_text chatting "s1" 9 file_draft). reflexivity.
Defined.

(** C4 (as stated) fails: an image draft with file metadata and no text is
    one the specification accepts, and the server stores nothing for it. *)
Lemma append_file_without_text_counterexample :
  ¬ append_as_specified chatting "s1" 9 file_draft.
Proof.
  intros H. destruct H as [m Hm]; [done|].
  vm_compute in Hm. discriminate_list.
Qed.

(** ** Message store: findById and save *)

Lemma findById_Some (id : MessageId) (db : list Message) (m : Message) :
  findById id db = Some m → _id m = id ∧ m ∈ db.
Proof.
  induction db as [|x db IH]; simpl; [done|].
  destruct (Nat.eqb_spec (_id x) id) as [Heq|Hne].
  - intros [= ->]. split; [done|left].
  - intros H. destruct (IH H). split; [done|by right].
Qed.

Lemma findById_save (id : MessageId) (db : list Message) (m m' : Message) :
  findById id db = Some m → _id m' = id →
  findById id (save m' db) = Some m'.
Proof.
  intros Hfind <-. induction db as [|x db IH]; simpl in *; [done|].
  destruct (Nat.eqb_spec (_id x) (_id m')) as [Heq|Hne]; simpl.
  - by rewrite Nat.eqb_refl.
  - destruct (Nat.eqb_spec (_id x) (_id m')); [done|]. by apply IH.
Qed.

Lemma findById_save_ne (id : MessageId) (db : list Message) (m' : Message) :
  id ≠ _id m' → findById id (save m' db) = findById id db.
Proof.
  intros Hne. induction db as [|x db IH]; simpl; [done|].
  destruct (Nat.eqb_spec (_id x) (_id m')) as [Heq|Hne']; simpl.
  - destruct (Nat.eqb_spec (_id m') id); [done|].
    destruct (Nat.eqb_spec (_id x) id); [lia|done].
  - by rewrite IH.
Qed.

Lemma broadcast_mutation_Forall (st : Server) (m : Message) (event : string)
    (p : Payload) :
  Forall (fun ev => e_event ev = event ∧ e_payload ev = p)
    (broadcast_mutation st m event p).
Proof.
  unfold broadcast_mutation. apply Forall_app. split.
  - destruct (find_by_id _ (receiverId m)) as [[? ?]|]; by repeat constructor.
  - destruct (find_by_id _ (senderId m)) as [[? ?]|]; by repeat constructor.
Qed.

(** ** Reactions *)

Lemma find_existsb {A : Type} (f : A → bool) (l : list A) :
  match List.find f l with Some _ => true | None => false end = existsb f l.
Proof. induction l as [|x l IH]; simpl; [done|]. by destruct (f x). Qed.

Lemma filter_negb_all {A : Type} (f : A → bool) (l : list A) :
  existsb f l = false → List.filter (fun x => negb (f x)) l = l.
Proof.
  induction l as [|x l IH]; simpl; [done|].
  destruct (f x); simpl; [done|]. intros H. by rewrite IH.
Qed.

Lemma existsb_filter_negb {A : Type} (f : A → bool) (l : list A) :
  existsb f (List.filter (fun x => negb (f x)) l) = false.
Proof.
  induction l as [|x l IH]; simpl; [done|].
  destruct (f x) eqn:E; simpl; [done|]. by rewrite E.
Qed.

Lemma same_reaction_key (u : UserId) (e : string) (r : Reaction) :
  same_reaction (Some u) (Some e) r = true ↔ (r_userId r, r_emoji r) = (u, e).
Proof.
  unfold same_reaction. rewrite andb_true_iff, !String.eqb_eq.
  split; [by intros [-> ->]|by intros [= -> ->]].
Qed.

Lemma react_absent (st : Server) (sid : SocketId) (now : Date)
    (id : MessageId) (u : UserId) (e : string) (m : Message) :
  findById id (Messages st) = Some m → e ≠ "" →
  has_reaction u e (reactions m) = false →
  let rs := reactions m ++ [mkReaction u e now] in
  react st sid now id u e =
    (with_Messages st (save (set_reactions m rs now) (Messages st)),
     broadcast_mutation st (set_reactions m rs now) "message:reaction"
       (MessageReaction (_id m) rs (Some u) (Some e) "added")).
Proof.
  intros Hfind He Habs. unfold react, on_message_react. simpl. rewrite Hfind.
  unfold has_reaction in Habs. rewrite <- find_existsb in Habs.
  destruct (List.find _ (reactions m)); [done|].
  by rewrite (string_eqb_false _ _ He).
Qed.

Lemma react_present (st : Server) (sid : SocketId) (now : Date)
    (id : MessageId) (u : UserId) (e : string) (m : Message) :
  findById id (Messages st) = Some m →
  has_reaction u e (reactions m) = true →
  let rs := List.filter (fun r => negb (same_reaction (Some u) (Some e) r))
              (reactions m) in
  react st sid now id u e =
    (with_Messages st (save (set_reactions m rs now) (Messages st)),
     broadcast_mutation st (set_reactions m rs now) "message:reaction"
       (MessageReaction (_id m) rs (Some u) (Some e) "removed")).
Proof.
  intros Hfind Hpre. unfold react, on_message_react. simpl. rewrite Hfind.
  unfold has_reaction in Hpre. rewrite <- find_existsb in Hpre.
  by destruct (List.find _ (reactions m)).
Qed.

Lemma react_unknown (st : Server) (sid : SocketId) (now : Date)
    (id : MessageId) (u : UserId) (e : string) :
  findById id (Messages st) = None →
  react st sid now id u e = (st, [error_to sid "Message not found"]).
Proof. intros H. unfold react, on_message_react. simpl. by rewrite H. Qed.

Lemma reports_broadcast (st : Server) (m : Message) (id : MessageId)
    (u : UserId) (e : string) (rs : list Reaction) (action : string) :
  reports id u e rs action
    (broadcast_mutation st m "message:reaction"
       (MessageReaction id rs (Some u) (Some e) action)).
Proof. apply broadcast_mutation_Forall. Qed.

Lemma react_adds (st : Server) (sid : SocketId) (now : Date)
    (id : MessageId) (u : UserId) (e : string) (m : Message) :
  findById id (Messages st) = Some m → e ≠ "" →
  has_reaction u e (reactions m) = false →
  ∃ m1, findById id (Messages (react st sid now id u e).1) = Some m1 ∧
        reactions m1 = reactions m ++ [mkReaction u e now] ∧
        reports id u e (reactions m1) "added" (react st sid now id u e).2.
Proof.
  intros Hfind He Habs. rewrite (react_absent _ _ _ _ _ _ _ Hfind He Habs).
  destruct (findById_Some _ _ _ Hfind) as [Hid _].
  eexists. split_and!.
  - simpl. by apply (findById_save _ _ m).
  - done.
  - rewrite <- Hid. apply reports_broadcast.
Qed.

Lemma react_removes (st : Server) (sid : SocketId) (now : Date)
    (id : MessageId) (u : UserId) (e : string) (m : Message) :
  findById id (Messages st) = Some m →
  has_reaction u e (reactions m) = true →
  ∃ m1, findById id (Messages (react st sid now id u e).1) = Some m1 ∧
        reactions m1 =
          List.filter (fun r => negb (same_reaction (Some u) (Some e) r))
            (reactions m) ∧
        reports id u e (reactions m1) "removed" (react st sid now id u e).2.
Proof.
  intros Hfind Hpre. rewrite (react_present _ _ _ _ _ _ _ Hfind Hpre).
  destruct (findById_Some _ _ _ Hfind) as [Hid _].
  eexists. split_and!.
  - simpl. by apply (findById_save _ _ m).
  - done.
  - rewrite <- Hid. apply reports_broadcast.
Qed.

Lemma broadcast_mutation_connections (st : Server) (m : Message)
    (event : string) (p : Payload) :
  broadcast_mutation st m event p =
    map (fun k => emit (ToRoom (Some k)) event p) (connections_of st m).
Proof.
  unfold broadcast_mutation, connections_of. simpl.
  destruct (find_by_id _ (receiverId m)) as [[? ?]|];
    destruct (find_by_id _ (senderId m)) as [[? ?]|]; reflexivity.
Qed.

Lemma react_adds_to (st : Server) (sid : SocketId) (now : Date)
    (id : MessageId) (u : UserId) (e : string) (m : Message) :
  findById id (Messages st) = Some m → e ≠ "" →
  has_reaction u e (reactions m) = false →
  let rs := reactions m ++ [mkReaction u e now] in
  react st sid now id u e =
    (with_Messages st (save (set_reactions m rs now) (Messages st)),
     map (fun k => emit (ToRoom (Some k)) "message:reaction"
                     (MessageReaction id rs (Some u) (Some e) "added"))
       (connections_of st m)).
Proof.
  intros Hfind He Habs rs.
  rewrite (react_absent _ _ _ _ _ _ _ Hfind He Habs).
  destruct (findById_Some _ _ _ Hfind) as [-> _].
  by rewrite broadcast_mutation_connections.
Qed.

Lemma react_removes_to (st : Server) (sid : SocketId) (now : Date)
    (id : MessageId) (u : UserId) (e : string) (m : Message) :
  findById id (Messages st) = Some m →
  has_reaction u e (reactions m) = true →
  let rs := List.filter (fun r => negb (same_reaction (Some u) (Some e) r))
              (reactions m) in
  react st sid now id u e =
    (with_Messages st (save (set_reactions m rs now) (Messages st)),
     map (fun k => emit (ToRoom (Some k)) "message:reaction"
                     (MessageReaction id rs (Some u) (Some e) "removed"))
       (connections_of st m)).
Proof.
  intros Hfind Hpre rs.
  rewrite (react_present _ _ _ _ _ _ _ Hfind Hpre).
  destruct (findById_Some _ _ _ Hfind) as [-> _].
  by rewrite broadcast_mutation_connections.
Qed.

Lemma findById_saved (st : Server) (id : MessageId) (m : Message)
    (rs : list Reaction) (now : Date) :
  findById id (Messages st) = Some m →
  findById id
    (Messages (with_Messages st (save (set_reactions m rs now) (Messages st))))
    = Some (set_reactions m rs now).
Proof.
  intros Hfind. destruct (findById_Some _ _ _ Hfind) as [Hid _].
  by apply (findById_save _ _ m).
Qed.

(** C5. Reacting is a toggle.  When the id names a stored message [m], for a
    user [u] and an emoji [e] (a non-empty string): if ([u], [e]) is absent,
    [react] appends that reaction and reports ["added"], and a second
    identical call removes it again, reports ["removed"] and leaves the
    stored reactions as they were; if ([u], [e]) is present, [react] removes
    exactly the reactions of ([u], [e]), keeping every other one, and reports
    ["removed"], and a second identical call adds it back and reports
    ["added"].  Each report is one [message:reaction] event, carrying the
    updated reactions, to the registered connection of the receiver of [m]
    and one to that of its sender, and nothing else is sent.  Either way the
    reaction set after two calls is the original one.  When the id names no
    stored message, whatever the emoji, [react] answers "Message not found"
    to the caller only and changes nothing, the first time and the
    second. *)
Theorem react_is_a_toggle (st : Server) (sid : SocketId) (now now' : Date)
    (id : MessageId) (u : UserId) (e : string) :
  let once := react st sid now id u e in
  let twice := react once.1 sid now' id u e in
  (∀ m, findById id (Messages st) = Some m → e ≠ "" →
     let others :=
       List.filter (fun r => negb (same_reaction (Some u) (Some e) r))
         (reactions m) in
     let to := connections_of st m in
     (has_reaction u e (reactions m) = false →
        reactions_of once.1 id = Some (reactions m ++ [mkReaction u e now]) ∧
        reported_to to id u e (reactions m ++ [mkReaction u e now]) "added"
          once.2 ∧
        reactions_of twice.1 id = Some (reactions m) ∧
        reported_to to id u e (reactions m) "removed" twice.2) ∧
     (has_reaction u e (reactions m) = true →
        reactions_of once.1 id = Some others ∧
        reported_to to id u e others "removed" once.2 ∧
        reactions_of twice.1 id = Some (others ++ [mkReaction u e now']) ∧
        reported_to to id u e (others ++ [mkReaction u e now']) "added"
          twice.2) ∧
     (∃ rs, reactions_of twice.1 id = Some rs ∧
            ∀ k, k ∈ reaction_keys rs ↔ k ∈ reaction_keys (reactions m))) ∧
  (findById id (Messages st) = None →
     once = (st, [error_to sid "Message not found"]) ∧
     twice = (st, [error_to sid "Message not found"])).
Proof.
  intros once twice. split.
  - intros m Hfind He others to.
    assert (has_reaction u e (reactions m) = false →
            reactions_of once.1 id =
              Some (reactions m ++ [mkReaction u e now]) ∧
            reported_to to id u e (reactions m ++ [mkReaction u e now])
              "added" once.2 ∧
            reactions_of twice.1 id = Some (reactions m) ∧
            reported_to to id u e (reactions m) "removed" twice.2)
      as Habsent.
    { intros Habs. subst once twice. unfold reactions_of, reported_to.
      rewrite (react_adds_to st sid now id u e m Hfind He Habs).
      cbn [fst snd].
      pose proof (findById_saved st id m
                    (reactions m ++ [mkReaction u e now]) now Hfind) as Hfind1.
      assert (has_reaction u e
                (reactions (set_reactions m
                              (reactions m ++ [mkReaction u e now]) now))
              = true) as Hnow.
      { unfold has_reaction. cbn [reactions set_reactions].
        rewrite existsb_app. simpl.
        by rewrite !string_eqb_refl, orb_true_r. }
      rewrite (react_removes_to _ sid now' id u e _ Hfind1 Hnow).
      cbn [fst snd]. rewrite Hfind1, (findById_saved _ id _ _ now' Hfind1).
      cbn [reactions set_reactions fmap option_fmap option_map].
      assert (List.filter
                (fun r => negb (same_reaction (Some u) (Some e) r))
                (reactions m ++ [mkReaction u e now]) = reactions m) as ->.
      { rewrite List.filter_app, (filter_negb_all _ _ Habs). simpl.
        by rewrite !string_eqb_refl, app_nil_r. }
      done. }
    assert (has_reaction u e (reactions m) = true →
            reactions_of once.1 id = Some others ∧
            reported_to to id u e others "removed" once.2 ∧
            reactions_of twice.1 id =
              Some (others ++ [mkReaction u e now']) ∧
            reported_to to id u e (others ++ [mkReaction u e now']) "added"
              twice.2) as Hpresent.
    { intros Hpre. subst once twice. unfold reactions_of, reported_to.
      rewrite (react_removes_to st sid now id u e m Hfind Hpre).
      cbn [fst snd]. fold others.
      pose proof (findById_saved st id m others now Hfind) as Hfind1.
      assert (has_reaction u e (reactions (set_reactions m others now))
              = false) as Hgone by apply existsb_filter_negb.
      rewrite (react_adds_to _ sid now' id u e _ Hfind1 He Hgone).
      cbn [fst snd]. rewrite Hfind1, (findById_saved _ id _ _ now' Hfind1).
      done. }
    split_and!; [done|done|].
    destruct (has_reaction u e (reactions m)) eqn:Hhas.
    + destruct (Hpresent eq_refl) as (_ & _ & H2 & _).
      exists (others ++ [mkReaction u e now']). split; [done|].
      intros [u' e']. unfold reaction_keys, others.
      rewrite fmap_app, elem_of_app, !list_elem_of_fmap. split.
      * intros [(r & Hk & Hr)|(r & Hk & Hr)].
        -- apply list_elem_of_In, List.filter_In in Hr as [Hr _].
           exists r. split; [done|]. by apply list_elem_of_In.
        -- apply list_elem_of_singleton in Hr as ->. simpl in Hk.
           unfold has_reaction in Hhas. apply existsb_exists in Hhas
             as (r & Hr & Hsame).
           exists r. split; [|by apply list_elem_of_In].
           apply same_reaction_key in Hsame. by rewrite Hsame.
      * intros (r & Hk & Hr).
        destruct (same_reaction (Some u) (Some e) r) eqn:Hsame.
        -- right. apply same_reaction_key in Hsame.
           exists (mkReaction u e now'). split; [by rewrite Hk, Hsame|left].
        -- left. exists r. split; [done|].
           apply list_elem_of_In, List.filter_In. split;
             [by apply list_elem_of_In|cbv beta; by rewrite Hsame].
    + destruct (Habsent eq_refl) as (_ & _ & H2 & _). by exists (reactions m).
  - intros Hnone. subst once twice.
    rewrite (react_unknown st sid now id u e Hnone). cbn [fst].
    by rewrite (react_unknown st sid now' id u e Hnone).
Qed.

(** ["u2"] reacts to the message of [chatting] with a thumbs-up, twice.  Both
    participants are connected: each call sends the event to ["s2"], the
    connection of the receiver, and to ["s1"], that of the sender. *)
Lemma react_is_a_toggle_witness :
  let once := react chatting "s2" 7 1 "u2" "👍" in
  let twice := react once.1 "s2" 8 1 "u2" "👍" in
  reactions_of once.1 1 = Some [mkReaction "u2" "👍" 7] ∧
  once.2 =
    [emit (ToRoom (Some "s2")) "message:reaction"
       (MessageReaction 1 [mkReaction "u2" "👍" 7] (Some "u2") (Some "👍")
          "added");
     emit (ToRoom (Some "s1")) "message:reaction"
       (MessageReaction 1 [mkReaction "u2" "👍" 7] (Some "u2") (Some "👍")
          "added")] ∧
  reactions_of twice.1 1 = Some [] ∧
  twice.2 =
    [emit (ToRoom (Some "s2")) "message:reaction"
       (MessageReaction 1 [] (Some "u2") (Some "👍") "removed");
     emit (ToRoom (Some "s1")) "message:reaction"
       (MessageReaction 1 [] (Some "u2") (Some "👍") "removed")].
Proof.
  destruct (react_is_a_toggle chatting "s2" 7 8 1 "u2" "👍") as [Hfound _].
  destruct (Hfound hi_message) as [Habsent _]; [reflexivity|discriminate|].
  destruct (Habsent eq_refl) as (H1 & H2 & H3 & H4).
  cbv zeta. split_and!; [exact H1|exact H2|exact H3|exact H4].
Defined.

(** ** Editing *)

Lemma edit_by_owner (st : Server) (sid : SocketId) (now : Date)
    (id : MessageId) (newText : string) (m : Message) :
  findById id (Messages st) = Some m → newText ≠ "" →
  edit st sid now id (senderId m) newText =
    (with_Messages st (save (set_edited m newText now) (Messages st)),
     broadcast_mutation st (set_edited m newText now) "message:edited"
       (MessageEdited (_id m) (Some newText) (Some now)
          (Some (senderId m)))).
Proof.
  intros Hfind Hne. unfold edit, on_message_edit. simpl. rewrite Hfind.
  rewrite bool_decide_eq_true_2 by done. simpl.
  by rewrite (string_eqb_false _ _ Hne).
Qed.

Lemma edit_by_other (st : Server) (sid : SocketId) (now : Date)
    (id : MessageId) (u : UserId) (newText : string) (m : Message) :
  findById id (Messages st) = Some m → u ≠ senderId m →
  edit st sid now id u newText =
    (st, [error_to sid "You can only edit your own messages"]).
Proof.
  intros Hfind Hne. unfold edit, on_message_edit. simpl. rewrite Hfind.
  rewrite bool_decide_eq_false_2; [done|]. congruence.
Qed.

Lemma edit_to_empty (st : Server) (sid : SocketId) (now : Date)
    (id : MessageId) (m : Message) :
  findById id (Messages st) = Some m →
  edit st sid now id (senderId m) "" =
    (st, [error_to sid "Failed to edit message"]).
Proof.
  intros Hfind. unfold edit, on_message_edit. simpl. rewrite Hfind.
  by rewrite bool_decide_eq_true_2.
Qed.

(** C6 (as amended). Editing is owner-only and needs a text.  For a stored
    message [m]: when [u] is not the sender, [edit] answers with the
    permission error and changes nothing; when [u] is the sender and the new
    text is not empty, the stored message gets the new text, [isEdited] true
    and [editedAt] the current time, every other field and every other
    message staying as it was; when [u] is the sender and the new text is
    empty, [edit] answers with the generic failure and changes nothing. *)
Theorem edit_owner_only_nonempty (st : Server) (sid : SocketId) (now : Date)
    (id : MessageId) (u : UserId) (newText : string) (m : Message) :
  findById id (Messages st) = Some m →
  (u ≠ senderId m →
     edit st sid now id u newText =
       (st, [error_to sid "You can only edit your own messages"])) ∧
  (u = senderId m → newText ≠ "" →
     ∃ m', findById id (Messages (edit st sid now id u newText).1) = Some m' ∧
           text m' = newText ∧ isEdited m' = true ∧ editedAt m' = Some now ∧
           m' = set_edited m newText now ∧
           ∀ id', id' ≠ id →
             findById id' (Messages (edit st sid now id u newText).1) =
               findById id' (Messages st)) ∧
  (u = senderId m → newText = "" →
     edit st sid now id u newText =
       (st, [error_to sid "Failed to edit message"])).
Proof.
  intros Hfind. destruct (findById_Some _ _ _ Hfind) as [Hid _].
  split_and!.
  - by apply edit_by_other.
  - intros -> Hne. rewrite (edit_by_owner _ _ _ _ _ _ Hfind Hne).
    exists (set_edited m newText now). simpl. split_and!; try done.
    + by apply (findById_save _ _ m).
    + intros id' Hne'. apply findById_save_ne. simpl. congruence.
  - intros -> ->. by apply edit_to_empty.
Qed.

(** ["u1"] edits the stored message to ["hello"]. *)
Lemma edit_owner_only_nonempty_witness :
  (∃ m', findById 1 (Messages (edit chatting "s1" 7 1 "u1" "hello").1) = Some m' ∧
         text m' = "hello" ∧ isEdited m' = true ∧ editedAt m' = Some 7 ∧
         m' = set_edited hi_message "hello" 7 ∧
         ∀ id', id' ≠ 1 →
           findById id' (Messages (edit chatting "s1" 7 1 "u1" "hello").1) =
             findById id' (Messages chatting)) ∧
  edit chatting "s2" 7 1 "u2" "hello" =
    (chatting, [error_to "s2" "You can only edit your own messages"]).
Proof.
  destruct (edit_owner_only_nonempty chatting "s1" 7 1 "u1" "hello" hi_message)
    as (_ & Hown & _); [reflexivity|].
  destruct (edit_owner_only_nonempty chatting "s2" 7 1 "u2" "hello" hi_message)
    as (Hother & _); [reflexivity|].
  split; [apply Hown; [reflexivity|discriminate]|apply Hother; discriminate].
Defined.

(** C6 (as stated) fails: the sender's edit of the stored message to the
    empty text is refused, and the message keeps its text. *)
Lemma owner_edit_counterexample :
  ¬ owner_edit_succeeds chatting "s1" 7 1 "u1" "".
Proof.
  intros H. destruct (H hi_message) as (m' & Hm' & Htext & _);
    [reflexivity|reflexivity|].
  vm_compute in Hm'. injection Hm' as <-. discriminate Htext.
Qed.

(** ** History *)

Lemma insert_desc_Permutation (m : Message) (l : list Message) :
  insert_desc m l ≡ₚ m :: l.
Proof.
  induction l as [|y l IH]; simpl; [done|].
  destruct (Nat.ltb _ _); [|done]. rewrite IH. apply Permutation_swap.
Qed.

Lemma sort_createdAt_desc_Permutation (l : list Message) :
  sort_createdAt_desc l ≡ₚ l.
Proof.
  induction l as [|m l IH]; simpl; [done|].
  by rewrite insert_desc_Permutation, IH.
Qed.

Lemma insert_desc_sorted (m : Message) (l : list Message) :
  StronglySorted newer_first l → StronglySorted newer_first (insert_desc m l).
Proof.
  induction l as [|y l IH]; simpl; intros Hs; [by repeat constructor|].
  apply StronglySorted_cons in Hs as [Hy Hl].
  destruct (Nat.ltb_spec (createdAt m) (createdAt y)) as [Hlt|Hge].
  - apply StronglySorted_cons. split; [|by apply IH].
    rewrite insert_desc_Permutation. constructor; [|done].
    unfold newer_first. lia.
  - apply StronglySorted_cons. split; [|by apply StronglySorted_cons].
    constructor; [done|]. eapply Forall_impl; [exact Hy|].
    unfold newer_first. simpl. intros x Hx. lia.
Qed.

Lemma sort_createdAt_desc_sorted (l : list Message) :
  StronglySorted newer_first (sort_createdAt_desc l).
Proof.
  induction l as [|m l IH]; simpl; [constructor|by apply insert_desc_sorted].
Qed.

Lemma StronglySorted_reverse_newer (l : list Message) :
  StronglySorted newer_first l → StronglySorted older_first (reverse l).
Proof.
  induction l as [|x l IH]; intros Hs; [constructor|].
  apply StronglySorted_cons in Hs as [Hx Hl]. rewrite reverse_cons.
  apply StronglySorted_app_2; [|by apply IH|by repeat constructor].
  intros a b Ha Hb. apply list_elem_of_singleton in Hb as ->.
  rewrite elem_of_reverse in Ha. rewrite Forall_forall in Hx. exact (Hx a Ha).
Qed.

Lemma limit_positive {A : Type} (n : nat) (l : list A) :
  0 < n → limit n l = take n l.
Proof. destruct n; [lia|done]. Qed.

Lemma mapM_history_item (st : Server) (h : list Message)
    (items : list HistoryItem) :
  mapM (history_item st) h = Some items →
  map h_id items = map _id h ∧ map h_timestamp items = map createdAt h ∧
  map h_message items = map text h.
Proof.
  rewrite mapM_Some. induction 1 as [|m it h items Hit _ IH]; [done|].
  destruct IH as (IH1 & IH2 & IH3). unfold history_item in Hit.
  destruct (Users st !! senderId m); [|done]. injection Hit as <-.
  simpl. by rewrite IH1, IH2, IH3.
Qed.

Lemma limit_take {A : Type} (n : nat) (l : list A) :
  limit n l = take (match n with 0 => length l | S _ => n end) l.
Proof. destruct n; [|done]. simpl. by rewrite take_ge. Qed.

(** C7 (as amended). For every conversation and limit [n] of at least 1,
    [history] returns [n] messages when the conversation has more than [n]
    and all of them otherwise.  A limit of 0 is read by the store as "no
    limit": [history] then returns every message of the conversation.
    Whatever the limit, the messages returned are in ascending order of
    creation time, they are messages of the conversation, and the messages
    left out are no newer than any message returned.  The [chat:get-history]
    handler sends these messages in this order whenever every sender is on
    record, and the generic error otherwise. *)
Theorem history_most_recent_ascending (st : Server) (c : string) (n : nat) :
  let conversation := find_conversation c (Messages st) in
  (0 < n → length (history st c n) = min n (length conversation)) ∧
  (n = 0 → history st c n ≡ₚ conversation ∧
           length (history st c n) = length conversation) ∧
  StronglySorted older_first (history st c n) ∧
  (∃ left_out,
     left_out ++ history st c n ≡ₚ conversation ∧
     ∀ o r, o ∈ left_out → r ∈ history st c n → createdAt o ≤ createdAt r) ∧
  (∀ sid d, asks_for d c n →
     (Forall (fun m => is_Some (Users st !! senderId m)) (history st c n) →
        answers_with st sid d c (history st c n)) ∧
     (answers_with st sid d c (history st c n) ∨
      on_chat_get_history st sid (Some d) =
        (st, [error_to sid "Failed to load chat history"]))).
Proof.
  intros conversation.
  assert (∀ sid d, asks_for d c n →
            (Forall (fun m => is_Some (Users st !! senderId m))
               (history st c n) →
             answers_with st sid d c (history st c n)) ∧
            (answers_with st sid d c (history st c n) ∨
             on_chat_get_history st sid (Some d) =
               (st, [error_to sid "Failed to load chat history"])))
    as Hhandler.
  { intros sid d [Hc Hlim].
    assert (∀ items, mapM (history_item st) (history st c n) = Some items →
                     answers_with st sid d c (history st c n)) as Hans.
    { intros items Hitems. exists items. unfold on_chat_get_history.
      rewrite Hc, Hlim, Hitems.
      split; [done|]. exact (mapM_history_item st _ _ Hitems). }
    split.
    - intros Hknown.
      assert (is_Some (mapM (history_item st) (history st c n)))
        as [items Hitems].
      { apply mapM_is_Some. eapply Forall_impl; [exact Hknown|].
        intros m [u Hu]. unfold history_item. simpl. by rewrite Hu. }
      by apply (Hans items).
    - destruct (mapM (history_item st) (history st c n))
        as [items|] eqn:Hitems; [left; by apply (Hans items)|right].
      unfold on_chat_get_history. by rewrite Hc, Hlim, Hitems. }
  revert Hhandler. unfold history, history_query. fold conversation.
  intros Hhandler.
  set (sorted := sort_createdAt_desc conversation) in *.
  pose proof (sort_createdAt_desc_sorted conversation) as Hsorted.
  fold sorted in Hsorted.
  pose proof (sort_createdAt_desc_Permutation conversation) as Hperm.
  fold sorted in Hperm.
  rewrite (limit_take n sorted) in *.
  set (k := match n with 0 => length sorted | S _ => n end) in *.
  rewrite <- (take_drop k sorted) in Hsorted.
  apply StronglySorted_app in Hsorted as (Hcross & Htake & _).
  split_and!.
  - intros Hn. rewrite length_reverse, length_take, <- Hperm.
    subst k. destruct n; [lia|done].
  - intros ->. subst k. rewrite take_ge by done.
    split; [by rewrite reverse_Permutation|].
    by rewrite length_reverse, Hperm.
  - by apply StronglySorted_reverse_newer.
  - exists (drop k sorted). split.
    + by rewrite reverse_Permutation, (comm (++)), take_drop.
    + intros o r Ho Hr. rewrite elem_of_reverse in Hr. exact (Hcross r o Hr Ho).
  - exact Hhandler.
Qed.

(** ["u2"] asks for the last two of the four messages of [long_chat] and
    gets the two newest, older one first; with limit 0 all four come back. *)
Lemma history_most_recent_ascending_witness :
  length (history long_chat "u1-u2" 2) = 2 ∧
  StronglySorted older_first (history long_chat "u1-u2" 2) ∧
  answers_with long_chat "s2"
    (mkHistoryRequest (Some "u1") (Some "u2") (Some 2)) "u1-u2"
    (history long_chat "u1-u2" 2) ∧
  length (history long_chat "u1-u2" 0) = 4 ∧
  map text (history long_chat "u1-u2" 2) = ["how are you"; "fine"] ∧
  map createdAt (history long_chat "u1-u2" 2) = [7; 9] ∧
  map createdAt (history long_chat "u1-u2" 0) = [3; 5; 7; 9].
Proof.
  destruct (history_most_recent_ascending long_chat "u1-u2" 2)
    as (Hlen & _ & Hsorted & _ & Hanswer).
  destruct (history_most_recent_ascending long_chat "u1-u2" 0)
    as (_ & Hall & _).
  split_and!; [exact (Hlen ltac:(lia))|exact Hsorted| |
               exact (proj2 (Hall eq_refl))|reflexivity|reflexivity|
               reflexivity].
  apply Hanswer; [split; reflexivity|].
  repeat constructor; eexists; reflexivity.
Defined.

(** C7 (as stated) fails for the limit 0: the request returns the one
    message of the conversation. *)
Lemma history_limit_zero_counterexample :
  ¬ history_at_most chatting "u1-u2" 0 ∧
  ∃ items,
    on_chat_get_history chatting "s2"
      (Some (mkHistoryRequest (Some "u1") (Some "u2") (Some 0))) =
      (chatting, [emit (ToSocket "s2") "chat:history"
                    (ChatHistory "u1-u2" items)]) ∧
    length items = 1.
Proof.
  split.
  - unfold history_at_most. vm_compute. lia.
  - eexists. split; reflexivity.
Qed.

(** ** Room roles *)

Lemma or_default_present (s d : string) : s ≠ "" → or_default (Some s) d = s.
Proof. intros H. simpl. by rewrite (string_eqb_false _ _ H). Qed.

(** C8. Roles go by arrival order.  When [a] joins an empty room, [a] alone
    is told it is the waiter; when [b] then joins the same room, [b] is told
    it is the caller, with the connection id, display name and locale of
    [a], and [a] gets the [expectingCallFrom] notice with the connection id,
    display name and locale of [b]; nothing else is sent, and the room then
    holds [a] and [b].  (Names and locales are the non-empty strings the two
    clients sent.) *)
Theorem roles_by_arrival_order (st : Server) (a b : SocketId) (room : string)
    (nameA langA nameB langB : string) :
  a ≠ b →
  room_members st room = [] →
  nameA ≠ "" → langA ≠ "" → langB ≠ "" →
  let first :=
    on_joinVideoCallRoom st a (mkJoinRoomData room (Some nameA) (Some langA)) in
  let second :=
    on_joinVideoCallRoom first.1 b
      (mkJoinRoomData room (Some nameB) (Some langB)) in
  first.2 =
    [emit (ToSocket a) "roomRole"
       (RoomRole waiter None "Waiting for other participant...")] ∧
  second.2 =
    [emit (ToSocket b) "roomRole"
       (RoomRole caller (Some (mkPeer a nameA langA)) "Ready to start call");
     emit (ToSocket a) "expectingCallFrom"
       (ExpectingCallFrom b (Some nameB) langB)] ∧
  room_members second.1 room = [a; b].
Proof.
  intros Hab Hempty HnA HlA HlB first second.
  assert (socket_join a room (rooms st) !! room = Some [a]) as Hjoin1.
  { unfold socket_join. rewrite lookup_insert_eq.
    unfold room_members in Hempty. by rewrite Hempty. }
  assert (first =
            (with_sockets (with_rooms st (socket_join a room (rooms st)))
               (<[a := mkSocketObj (Some nameA) (Some langA)]> (sockets st)),
             [emit (ToSocket a) "roomRole"
                (RoomRole waiter None "Waiting for other participant...")]))
    as Hfirst.
  { subst first. unfold on_joinVideoCallRoom. cbv zeta.
    cbn [rooms with_rooms jr_meetingId]. by rewrite Hjoin1. }
  assert (socket_join b room (rooms first.1) !! room = Some [a; b]) as Hjoin2.
  { rewrite Hfirst. cbn [fst rooms with_sockets with_rooms].
    unfold socket_join at 1. rewrite lookup_insert_eq, Hjoin1. simpl.
    unfold Set_add. rewrite bool_decide_eq_false_2; [done|].
    intros Hin. by apply list_elem_of_singleton in Hin. }
  assert (String.eqb a b = false) as Hneq by by apply string_eqb_false.
  subst second. unfold on_joinVideoCallRoom. cbv zeta.
  cbn [rooms with_rooms with_sockets jr_meetingId jr_userName
       jr_nativeLanguage sockets].
  rewrite !Hjoin2. cbn [length Nat.eqb default from_option id List.find].
  rewrite Hneq. cbn [negb].
  rewrite Hfirst. cbn [fst sockets with_sockets with_rooms].
  rewrite lookup_insert_ne by done. rewrite lookup_insert_eq.
  cbn [videoUserName videoNativeLanguage snd fst].
  rewrite !or_default_present by done.
  split_and!; [done|done|].
  unfold room_members. cbn [rooms with_sockets with_rooms].
  rewrite Hfirst in Hjoin2. cbn [fst rooms with_sockets with_rooms] in Hjoin2.
  by rewrite Hjoin2.
Qed.

(** Ann, then Bob, join room ["m1"] on a fresh server. *)
Lemma roles_by_arrival_order_witness :
  let st := (run video_rooms (initial ∅) (take 3 three_joiners)).1 in
  let first :=
    on_joinVideoCallRoom st "s1"
      (mkJoinRoomData "m1" (Some "Ann") (Some "fr-FR")) in
  let second :=
    on_joinVideoCallRoom first.1 "s2"
      (mkJoinRoomData "m1" (Some "Bob") (Some "de-DE")) in
  first.2 =
    [emit (ToSocket "s1") "roomRole"
       (RoomRole waiter None "Waiting for other participant...")] ∧
  second.2 =
    [emit (ToSocket "s2") "roomRole"
       (RoomRole caller (Some (mkPeer "s1" "Ann" "fr-FR"))
          "Ready to start call");
     emit (ToSocket "s1") "expectingCallFrom"
       (ExpectingCallFrom "s2" (Some "Bob") "de-DE")] ∧
  room_members second.1 "m1" = ["s1"; "s2"].
Proof.
  apply (roles_by_arrival_order _ "s1" "s2" "m1" "Ann" "fr-FR" "Bob" "de-DE");
    [discriminate|reflexivity|discriminate|discriminate|discriminate].
Defined.

(** ** Failures in the signaling handlers *)

(** C9 (where the code departs from it). An event sent without a payload
    makes a handler throw while it reads the payload's fields.  The chat
    handlers and the handlers of [webrtc:offer] and [webrtc:answer] then
    answer the sender with exactly one generic error event and nothing else;
    those of [webrtc:ice-candidate] and [call:end], and [callUser] and
    [answerCall] of the later revision, only log: the sender gets no event
    at all. *)
Theorem signaling_failures_not_all_reported (st : Server) (sid : SocketId)
    (now : Date) :
  (on_chat_message st sid now None =
     (st, [error_to sid "Failed to send message"]) ∧
   on_chat_get_history st sid None =
     (st, [error_to sid "Failed to load chat history"]) ∧
   on_message_react st sid now None =
     (st, [error_to sid "Failed to add reaction"]) ∧
   on_message_edit st sid now None =
     (st, [error_to sid "Failed to edit message"]) ∧
   on_message_delete st sid now None =
     (st, [error_to sid "Failed to delete message"]) ∧
   on_webrtc_offer st sid None =
     (st, [error_to sid "Failed to send call offer"]) ∧
   on_webrtc_answer st sid None =
     (st, [error_to sid "Failed to send call answer"])) ∧
  (on_webrtc_ice_candidate st sid None = (st, []) ∧
   on_call_end st sid None = (st, []) ∧
   on_callUser st sid None = (st, []) ∧
   on_answerCall st sid None = (st, [])).
Proof. by split_and!. Qed.

(** The same through the event loop: connection ["s1"] of [chatting] sends
    [webrtc:ice-candidate] without a payload and hears nothing back, while
    its [webrtc:answer] without a payload is answered with the error. *)
Lemma ice_candidate_failure_unreported :
  handle server_js chatting "s1" 9 (Client (webrtc_ice_candidate None)) =
    (chatting, []) ∧
  handle server_js chatting "s1" 9 (Client (webrtc_answer None)) =
    (chatting, [error_to "s1" "Failed to send call answer"]).
Proof. split; reflexivity. Qed.

(** ** The read flag *)

Lemma save_isRead (db : list Message) (m m' : Message) :
  findById (_id m') db = Some m → isRead m' = isRead m →
  map isRead (save m' db) = map isRead db.
Proof.
  intros Hfind Hflag. induction db as [|x db IH]; simpl in *; [done|].
  destruct (Nat.eqb (_id x) (_id m')).
  - injection Hfind as ->. simpl. by rewrite Hflag.
  - simpl. by rewrite IH.
Qed.

Lemma on_chat_message_flags (st : Server) (sid : SocketId) (now : Date)
    (data : option ChatMessageData) :
  flags_kept st (on_chat_message st sid now data).1.
Proof.
  unfold flags_kept. destruct data as [d|]; [|by left].
  generalize (on_chat_message_Messages st sid now d).
  destruct (Message_create _ _ _) as [saved|] eqn:E; [|intros ->; by left].
  intros ->. right. rewrite map_app. simpl.
  apply Message_create_fields in E
    as (_ & _ & _ & _ & _ & _ & _ & _ & _ & _ & _ & -> & _). done.
Qed.

Lemma on_message_react_flags (st : Server) (sid : SocketId) (now : Date)
    (data : option ReactData) :
  flags_kept st (on_message_react st sid now data).1.
Proof.
  left. unfold on_message_react. destruct data as [d|]; [|done].
  destruct (rd_messageId d) as [id|]; [|done]. simpl.
  destruct (findById id (Messages st)) as [m|] eqn:Hfind; [|done].
  destruct (findById_Some _ _ _ Hfind) as [<- _].
  destruct (List.find _ _);
    [|destruct (new_reaction _ _ _); [|done]]; simpl;
    by apply (save_isRead _ m).
Qed.

Lemma on_message_edit_flags (st : Server) (sid : SocketId) (now : Date)
    (data : option EditData) :
  flags_kept st (on_message_edit st sid now data).1.
Proof.
  left. unfold on_message_edit. destruct data as [d|]; [|done].
  destruct (ed_messageId d) as [id|]; [|done]. simpl.
  destruct (findById id (Messages st)) as [m|] eqn:Hfind; [|done].
  destruct (findById_Some _ _ _ Hfind) as [<- _].
  destruct (negb _); [done|].
  destruct (required_string _); [|done]. simpl. by apply (save_isRead _ m).
Qed.

Lemma on_message_delete_flags (st : Server) (sid : SocketId) (now : Date)
    (data : option DeleteData) :
  flags_kept st (on_message_delete st sid now data).1.
Proof.
  left. unfold on_message_delete. destruct data as [d|]; [|done].
  destruct (dd_messageId d) as [id|]; [|done]. simpl.
  destruct (findById id (Messages st)) as [m|] eqn:Hfind; [|done].
  destruct (findById_Some _ _ _ Hfind) as [<- _].
  destruct (negb _); [done|]. simpl. by apply (save_isRead _ m).
Qed.

Lemma on_chat_get_history_state (st : Server) (sid : SocketId)
    (data : option HistoryRequest) :
  (on_chat_get_history st sid data).1 = st.
Proof.
  unfold on_chat_get_history. destruct data as [d|]; [|done].
  by destruct (mapM _ _).
Qed.

Lemma on_joinVideoCallRoom_Messages (st : Server) (sid : SocketId)
    (d : JoinRoomData) :
  Messages (on_joinVideoCallRoom st sid d).1 = Messages st.
Proof.
  unfold on_joinVideoCallRoom. repeat (case_match; simpl; try done).
Qed.

Lemma dispatch_flags (rev : Revision) (st : Server) (sid : SocketId)
    (now : Date) (e : ClientEvent) :
  flags_kept st (dispatch rev st sid now e).1.
Proof.
  destruct e as [d|d|d|d|d|d|d|d|d|d|d|d|d|d|]; simpl.
  - left. by destruct d.
  - apply on_chat_message_flags.
  - left. by rewrite on_chat_get_history_state.
  - apply on_message_react_flags.
  - apply on_message_edit_flags.
  - apply on_message_delete_flags.
  - left. destruct rev; [|done]. unfold on_webrtc_offer.
    destruct d; [|done]. by destruct (find_by_id_toString _ _) as [[[??]|]|].
  - left. destruct rev; [|done]. by destruct d.
  - left. destruct rev; [|done]. by destruct d.
  - left. destruct rev; [|done]. by destruct d.
  - left. destruct d as [d|], rev; try done.
    unfold on_videoCallInvitation.
    by destruct (find_by_id_toString _ _) as [[[??]|]|].
  - left. destruct d as [d|], rev; try done.
    by rewrite on_joinVideoCallRoom_Messages.
  - left. destruct rev; [done|]. by destruct d.
  - left. destruct rev; [done|]. by destruct d.
  - left. by destruct rev.
Qed.

Lemma handle_flags (rev : Revision) (st : Server) (sid : SocketId)
    (now : Date) (i : Input) :
  flags_kept st (handle rev st sid now i).1.
Proof.
  destruct i as [| |e]; simpl.
  - left. destruct (negb _ || _); [done|]. by destruct rev.
  - left. case_bool_decide; [|done]. unfold on_disconnect.
    by destruct (JsMap.get _ _).
  - case_bool_decide; [apply dispatch_flags|by left].
Qed.

Lemma run_unread (rev : Revision) (trace : list (SocketId * Date * Input))
    (st : Server) :
  Forall (fun m => isRead m = false) (Messages st) →
  Forall (fun m => isRead m = false) (Messages (run rev st trace).1).
Proof.
  revert st. induction trace as [|[[sid now] i] trace IH]; intros st Hst;
    [done|].
  simpl. pose proof (handle_flags rev st sid now i) as Hstep.
  destruct (handle rev st sid now i) as [st1 out1]. simpl in Hstep.
  specialize (IH st1). destruct (run rev st1 trace) as [st2 out2]. simpl in *.
  apply IH. clear IH.
  assert (Forall (fun b => b = false) (map isRead (Messages st))) as Hflags
    by by apply List.Forall_map.
  apply (proj1 (List.Forall_map isRead (fun b => b = false) (Messages st1))).
  unfold flags_kept in Hstep.
  destruct Hstep as [->| ->]; [done|].
  apply Forall_app. split; [done|by repeat constructor].
Qed.

(** C10. No server operation sets [isRead]: every turn of the event loop,
    in either revision, leaves the read flag of every stored message as it
    was and stores a new message, if any, unread; so on a server started
    with an empty collection every message is unread after any run.
    Retrieving history leaves the whole state, and so every field of every
    stored message, unchanged. *)
Theorem isRead_never_set (rev : Revision) :
  (∀ st sid now i,
     map isRead (Messages (handle rev st sid now i).1) =
       map isRead (Messages st) ∨
     map isRead (Messages (handle rev st sid now i).1) =
       map isRead (Messages st) ++ [false]) ∧
  (∀ users trace,
     Forall (fun m => isRead m = false)
       (Messages (run rev (initial users) trace).1)) ∧
  (∀ st sid data, (on_chat_get_history st sid data).1 = st).
Proof.
  split_and!.
  - apply handle_flags.
  - intros users trace. by apply run_unread.
  - apply on_chat_get_history_state.
Qed.

(** * Further properties of the server *)

(** ** What a turn does to the collection *)

Lemma on_message_react_store (st : Server) (sid : SocketId) (now : Date)
    (data : option ReactData) :
  store_step (Messages st) (Messages (on_message_react st sid now data).1).
Proof.
  unfold on_message_react. destruct data as [d|]; [|constructor].
  destruct (rd_messageId d) as [id|]; [|constructor]. simpl.
  destruct (findById id (Messages st)) as [m|] eqn:Hfind; [|constructor].
  destruct (findById_Some _ _ _ Hfind) as [<- _].
  destruct (List.find _ _) eqn:Hex; simpl.
  - apply (store_save _ m); [done|]. apply mutated_react_remove.
  - unfold new_reaction.
    destruct (rd_userId d) as [u|]; [|constructor].
    destruct (required_string (rd_emoji d)) as [e|] eqn:He; [|constructor].
    apply required_string_Some in He as [He _]. simpl.
    apply (store_save _ m); [done|]. apply mutated_react_add.
    unfold has_reaction. rewrite <- find_existsb. rewrite He in Hex.
    by rewrite Hex.
Qed.

Lemma on_message_edit_store (st : Server) (sid : SocketId) (now : Date)
    (data : option EditData) :
  store_step (Messages st) (Messages (on_message_edit st sid now data).1).
Proof.
  unfold on_message_edit. destruct data as [d|]; [|constructor].
  destruct (ed_messageId d) as [id|]; [|constructor]. simpl.
  destruct (findById id (Messages st)) as [m|] eqn:Hfind; [|constructor].
  destruct (findById_Some _ _ _ Hfind) as [<- _].
  destruct (negb _); [constructor|].
  destruct (required_string _) as [t|] eqn:Ht; [|constructor]. simpl.
  apply required_string_Some in Ht as [_ Ht].
  apply (store_save _ m); [done|]. by apply mutated_edit.
Qed.

Lemma on_message_delete_store (st : Server) (sid : SocketId) (now : Date)
    (data : option DeleteData) :
  store_step (Messages st) (Messages (on_message_delete st sid now data).1).
Proof.
  unfold on_message_delete. destruct data as [d|]; [|constructor].
  destruct (dd_messageId d) as [id|]; [|constructor]. simpl.
  destruct (findById id (Messages st)) as [m|] eqn:Hfind; [|constructor].
  destruct (findById_Some _ _ _ Hfind) as [<- _].
  destruct (negb _); [constructor|]. simpl.
  apply (store_save _ m); [done|]. apply mutated_delete.
Qed.

Lemma on_chat_message_store (st : Server) (sid : SocketId) (now : Date)
    (data : option ChatMessageData) :
  store_step (Messages st) (Messages (on_chat_message st sid now data).1).
Proof.
  destruct data as [d|]; [|constructor].
  generalize (on_chat_message_Messages st sid now d).
  destruct (Message_create _ _ _) as [saved|] eqn:E; intros ->.
  - by apply (store_create _ now (messageData_of d)).
  - constructor.
Qed.

Lemma dispatch_store (rev : Revision) (st : Server) (sid : SocketId)
    (now : Date) (e : ClientEvent) :
  store_step (Messages st) (Messages (dispatch rev st sid now e).1).
Proof.
  destruct e as [d|d|d|d|d|d|d|d|d|d|d|d|d|d|]; simpl.
  - destruct d; constructor.
  - apply on_chat_message_store.
  - rewrite on_chat_get_history_state. constructor.
  - apply on_message_react_store.
  - apply on_message_edit_store.
  - apply on_message_delete_store.
  - destruct rev; [|constructor]. unfold on_webrtc_offer.
    destruct d; [|constructor].
    destruct (find_by_id_toString _ _) as [[[??]|]|]; constructor.
  - destruct rev; [|constructor]. destruct d; constructor.
  - destruct rev; [|constructor]. destruct d; constructor.
  - destruct rev; [|constructor]. destruct d; constructor.
  - destruct d as [d|], rev; try constructor. unfold on_videoCallInvitation.
    destruct (find_by_id_toString _ _) as [[[??]|]|]; constructor.
  - destruct d as [d|], rev; try constructor.
    rewrite on_joinVideoCallRoom_Messages. constructor.
  - destruct rev; [constructor|]. destruct d; constructor.
  - destruct rev; [constructor|]. destruct d; constructor.
  - destruct rev; constructor.
Qed.

Lemma handle_store (rev : Revision) (st : Server) (sid : SocketId)
    (now : Date) (i : Input) :
  store_step (Messages st) (Messages (handle rev st sid now i).1).
Proof.
  destruct i as [| |e]; simpl.
  - destruct (negb _ || _); [constructor|]. destruct rev; constructor.
  - case_bool_decide; [|constructor]. unfold on_disconnect.
    destruct (JsMap.get _ _); constructor.
  - case_bool_decide; [apply dispatch_store|constructor].
Qed.

Lemma findById_app (id : MessageId) (db l : list Message) (m : Message) :
  findById id db = Some m → findById id (db ++ l) = Some m.
Proof.
  induction db as [|x db IH]; simpl; [done|]. by destruct (Nat.eqb _ _).
Qed.

Lemma persists_refl (m : Message) : persists m m.
Proof. by repeat split. Qed.

Lemma mutated_persists (m m' : Message) : mutated m m' → persists m m'.
Proof. destruct 1; by repeat split. Qed.

Lemma store_step_findById (db db' : list Message) (id : MessageId)
    (m : Message) :
  store_step db db' → findById id db = Some m →
  ∃ m', findById id db' = Some m' ∧ persists m m'.
Proof.
  intros Hstep Hfind. destruct Hstep as [|now d saved Hc|m0 m0' Hm0 Hmut].
  - exists m. split; [done|apply persists_refl].
  - exists m. split; [by apply findById_app|apply persists_refl].
  - pose proof (mutated_persists _ _ Hmut) as Hp.
    destruct (decide (id = _id m0)) as [->|Hne].
    + exists m0'. rewrite Hm0 in Hfind. injection Hfind as <-.
      split; [|done]. apply (findById_save _ _ m0); [done|]. by destruct Hp.
    + exists m. split; [|apply persists_refl].
      rewrite findById_save_ne; [done|]. destruct Hp as [-> _]. done.
Qed.

(** X2. Stored messages persist.  Whatever the event, connection, time and
    revision, a turn of the event loop keeps every stored message findable
    under its id, with the same sender, receiver, conversation, creation
    time, type, reply reference, file metadata and read flag; a message
    that was deleted stays deleted and one that was edited stays edited. *)
Theorem stored_messages_persist (rev : Revision) (st : Server)
    (sid : SocketId) (now : Date) (i : Input) (id : MessageId) (m : Message) :
  findById id (Messages st) = Some m →
  ∃ m', findById id (Messages (handle rev st sid now i).1) = Some m' ∧
        persists m m'.
Proof.
  intros Hfind. eapply store_step_findById; [apply handle_store|done].
Qed.

(** The receiver tries to edit the tombstoned message of [tombstoned]; it
    stays stored and deleted. *)
Lemma stored_messages_persist_witness :
  ∃ m', findById 1
          (Messages (handle server_js tombstoned "s2" 8
                       (Client (message_edit
                                  (Some (mkEditData (Some 1) (Some "x")
                                           (Some "u2")))))).1) = Some m' ∧
        persists (set_deleted hi_message 5) m'.
Proof.
  apply (stored_messages_persist server_js tombstoned "s2" 8 _ 1).
  reflexivity.
Defined.

(** ** Tombstones *)

Lemma tombstone_by_owner (st : Server) (sid : SocketId) (now : Date)
    (id : MessageId) (m : Message) :
  findById id (Messages st) = Some m →
  tombstone st sid now id (senderId m) =
    (with_Messages st (save (set_deleted m now) (Messages st)),
     broadcast_mutation st (set_deleted m now) "message:deleted"
       (MessageDeleted (_id m) (Some now) (Some (senderId m)))).
Proof.
  intros Hfind. unfold tombstone, on_message_delete. simpl. rewrite Hfind.
  by rewrite bool_decide_eq_true_2.
Qed.

(** X1. Deleting is owner-only and leaves a tombstone.  For a stored message
    [m]: when [u] is not the sender, [tombstone] answers with the permission
    error and changes nothing; when [u] is the sender, the stored message
    gets the fixed placeholder as text, [isDeleted] true and [deletedAt] the
    current time, whether or not it was deleted before, its reactions and
    edit marks and every other message stay as they were, and each event
    sent is a [message:deleted] with the id and the time.  For an unknown id
    the answer is "Message not found" and nothing changes. *)
Theorem tombstone_owner_only (st : Server) (sid : SocketId) (now : Date)
    (id : MessageId) (u : UserId) (m : Message) :
  findById id (Messages st) = Some m →
  (u ≠ senderId m →
     tombstone st sid now id u =
       (st, [error_to sid "You can only delete your own messages"])) ∧
  (u = senderId m →
     ∃ m', findById id (Messages (tombstone st sid now id u).1) = Some m' ∧
           text m' = "This message was deleted" ∧ isDeleted m' = true ∧
           deletedAt m' = Some now ∧ reactions m' = reactions m ∧
           isEdited m' = isEdited m ∧ editedAt m' = editedAt m ∧
           (∀ id', id' ≠ id →
              findById id' (Messages (tombstone st sid now id u).1) =
                findById id' (Messages st)) ∧
           Forall (fun ev => e_event ev = "message:deleted" ∧
                             e_payload ev =
                               MessageDeleted id (Some now) (Some u))
             (tombstone st sid now id u).2) ∧
  (∀ id', findById id' (Messages st) = None →
     tombstone st sid now id' u = (st, [error_to sid "Message not found"])).
Proof.
  intros Hfind. destruct (findById_Some _ _ _ Hfind) as [Hid _].
  split_and!.
  - intros Hne. unfold tombstone, on_message_delete. simpl. rewrite Hfind.
    rewrite bool_decide_eq_false_2; [done|]. congruence.
  - intros ->. rewrite (tombstone_by_owner _ _ _ _ _ Hfind).
    exists (set_deleted m now). simpl. split_and!; try done.
    + by apply (findById_save _ _ m).
    + intros id' Hne'. apply findById_save_ne. simpl. congruence.
    + rewrite <- Hid. apply broadcast_mutation_Forall.
  - intros id' Hnone. unfold tombstone, on_message_delete. simpl.
    by rewrite Hnone.
Qed.

(** ["u1"] deletes its message in [chatting]; ["u2"] may not. *)
Lemma tombstone_owner_only_witness :
  (∃ m', findById 1 (Messages (tombstone chatting "s1" 5 1 "u1").1) = Some m' ∧
         text m' = "This message was deleted" ∧ isDeleted m' = true ∧
         deletedAt m' = Some 5 ∧ reactions m' = reactions hi_message ∧
         isEdited m' = isEdited hi_message ∧
         editedAt m' = editedAt hi_message ∧
         (∀ id', id' ≠ 1 →
            findById id' (Messages (tombstone chatting "s1" 5 1 "u1").1) =
              findById id' (Messages chatting)) ∧
         Forall (fun ev => e_event ev = "message:deleted" ∧
                           e_payload ev = MessageDeleted 1 (Some 5) (Some "u1"))
           (tombstone chatting "s1" 5 1 "u1").2) ∧
  tombstone chatting "s2" 5 1 "u2" =
    (chatting, [error_to "s2" "You can only delete your own messages"]).
Proof.
  destruct (tombstone_owner_only chatting "s1" 5 1 "u1" hi_message)
    as (_ & Hown & _); [reflexivity|].
  destruct (tombstone_owner_only chatting "s2" 5 1 "u2" hi_message)
    as (Hother & _); [reflexivity|].
  split; [apply Hown; reflexivity|apply Hother; discriminate].
Defined.

(** X3. A tombstone does not block an edit.  The sender's edit of a deleted
    message to a non-empty text succeeds like any other: the placeholder is
    replaced by the new text and the message is marked edited, while it
    stays marked deleted with the deletion time it had. *)
Theorem edit_overwrites_tombstone (st : Server) (sid : SocketId) (now : Date)
    (id : MessageId) (newText : string) (m : Message) :
  findById id (Messages st) = Some m →
  isDeleted m = true →
  newText ≠ "" →
  ∃ m', findById id (Messages (edit st sid now id (senderId m) newText).1)
          = Some m' ∧
        text m' = newText ∧ isEdited m' = true ∧ editedAt m' = Some now ∧
        isDeleted m' = true ∧ deletedAt m' = deletedAt m.
Proof.
  intros Hfind Hdel Hne. rewrite (edit_by_owner _ _ _ _ _ _ Hfind Hne).
  exists (set_edited m newText now). simpl. split_and!; try done.
  apply (findById_save _ _ m); [done|].
  by destruct (findById_Some _ _ _ Hfind).
Qed.

(** ["u1"] edits the message it deleted at time 5. *)
Lemma edit_overwrites_tombstone_witness :
  ∃ m', findById 1 (Messages (edit tombstoned "s1" 8 1 "u1" "again").1)
          = Some m' ∧
        text m' = "again" ∧ isEdited m' = true ∧ editedAt m' = Some 8 ∧
        isDeleted m' = true ∧ deletedAt m' = Some 5.
Proof.
  apply (edit_overwrites_tombstone tombstoned "s1" 8 1 "again"
           (set_deleted hi_message 5)); [reflexivity|reflexivity|discriminate].
Defined.

(** ** Reactions stay unique *)

Lemma NoDup_map_filter {A B : Type} (f : A → B) (p : A → bool) (l : list A) :
  NoDup (map f l) → NoDup (map f (List.filter p l)).
Proof.
  induction l as [|x l IH]; simpl; [done|].
  intros Hnd. apply NoDup_cons in Hnd as [Hx Hl].
  destruct (p x); simpl; [|by apply IH].
  apply NoDup_cons. split; [|by apply IH].
  intros Hin. apply Hx. apply list_elem_of_fmap in Hin as (y & -> & Hy).
  apply list_elem_of_fmap. exists y. split; [done|].
  apply list_elem_of_In. apply list_elem_of_In, List.filter_In in Hy.
  by destruct Hy.
Qed.

Lemma has_reaction_false_key (u : UserId) (e : string) (rs : list Reaction) :
  has_reaction u e rs = false → (u, e) ∉ reaction_keys rs.
Proof.
  unfold has_reaction, reaction_keys. intros Hno Hin.
  apply list_elem_of_fmap in Hin as (r & Hk & Hr).
  assert (existsb (same_reaction (Some u) (Some e)) rs = true) as Hyes.
  { apply existsb_exists. exists r. split; [by apply list_elem_of_In|].
    apply same_reaction_key. by rewrite Hk. }
  congruence.
Qed.

Lemma mutated_reactions_unique (m m' : Message) :
  mutated m m' → reactions_unique m → reactions_unique m'.
Proof.
  unfold reactions_unique. destruct 1 as [u e now Habs|u e now|t now _|now];
    simpl; intros Hnd; try done.
  - unfold reaction_keys. rewrite map_app. simpl.
    apply NoDup_app. split_and!; [done| |apply NoDup_singleton].
    intros k Hk Hk'. apply list_elem_of_singleton in Hk' as ->.
    by apply (has_reaction_false_key _ _ _ Habs).
  - by apply NoDup_map_filter.
Qed.

Lemma Forall_save (P : Message → Prop) (m' : Message) (db : list Message) :
  Forall P db → P m' → Forall P (save m' db).
Proof.
  intros Hdb Hm'. induction Hdb as [|x db Hx Hdb IH]; simpl; [constructor|].
  destruct (Nat.eqb _ _); by constructor.
Qed.

Lemma store_step_reactions_unique (db db' : list Message) :
  store_step db db' → Forall reactions_unique db → Forall reactions_unique db'.
Proof.
  intros Hstep Hdb. destruct Hstep as [|now d saved Hc|m0 m0' Hm0 Hmut].
  - done.
  - apply Forall_app. split; [done|]. apply Forall_singleton.
    apply Message_create_fields in Hc
      as (_ & _ & _ & _ & _ & _ & _ & _ & _ & _ & Hrs & _).
    unfold reactions_unique. rewrite Hrs. constructor.
  - apply Forall_save; [done|].
    apply (mutated_reactions_unique m0); [done|].
    rewrite Forall_forall in Hdb. apply Hdb.
    by destruct (findById_Some _ _ _ Hm0).
Qed.

Lemma run_reactions_unique (rev : Revision)
    (trace : list (SocketId * Date * Input)) (st : Server) :
  Forall reactions_unique (Messages st) →
  Forall reactions_unique (Messages (run rev st trace).1).
Proof.
  revert st. induction trace as [|[[sid now] i] trace IH]; intros st Hst;
    [done|].
  simpl. pose proof (handle_store rev st sid now i) as Hstep.
  destruct (handle rev st sid now i) as [st1 out1]. simpl in Hstep.
  specialize (IH st1). destruct (run rev st1 trace) as [st2 out2]. simpl in *.
  apply IH. by apply (store_step_reactions_unique (Messages st)).
Qed.

(** X4. Reactions stay unique.  On a server started with an empty
    collection, after any run of the event loop in which the handlers run
    one at a time, no stored message has two reactions with the same user
    and emoji: a reaction is pushed only when the search for it found
    none. *)
Theorem reactions_stay_unique (rev : Revision) (users : gmap string UserDoc)
    (trace : list (SocketId * Date * Input)) :
  Forall reactions_unique (Messages (run rev (initial users) trace).1).
Proof. by apply run_reactions_unique. Qed.

(** ** Presence: unregistering *)

Lemma JsMap_get_has {V : Type} (k : string) (m : list (string * V)) :
  JsMap.has k m = false ↔ JsMap.get k m = None.
Proof. unfold JsMap.has. by destruct (JsMap.get k m). Qed.

Lemma JsMap_get_elem {V : Type} (k : string) (v : V) (m : list (string * V)) :
  JsMap.get k m = Some v → (k, v) ∈ m.
Proof.
  induction m as [|[k' v'] m IH]; simpl; [done|].
  destruct (String.eqb_spec k' k) as [->|Hne].
  - intros [= ->]. left.
  - intros H. right. by apply IH.
Qed.

Lemma JsMap_get_None_key {V : Type} (k : string) (m : list (string * V)) :
  JsMap.get k m = None ↔ k ∉ map fst m.
Proof.
  induction m as [|[k' v'] m IH]; simpl.
  - split; [intros _ H; by apply elem_of_nil in H|done].
  - rewrite not_elem_of_cons.
    destruct (String.eqb_spec k' k) as [->|Hne]; split.
    + done.
    + by intros [? _].
    + intros H. split; [done|by apply IH].
    + intros [_ H]. by apply IH.
Qed.

Lemma JsMap_delete_self {V : Type} (k : string) (m : list (string * V)) :
  NoDup (map fst m) → JsMap.get k (JsMap.delete k m) = None.
Proof.
  induction m as [|[k' v'] m IH]; simpl; [done|]. intros Hnd.
  apply NoDup_cons in Hnd as [Hk' Hnd].
  destruct (String.eqb_spec k' k) as [->|Hne].
  - by apply JsMap_get_None_key.
  - simpl. rewrite (string_eqb_false _ _ Hne). by apply IH.
Qed.

Lemma JsMap_delete_other {V : Type} (k c : string) (m : list (string * V)) :
  c ≠ k → JsMap.get c (JsMap.delete k m) = JsMap.get c m.
Proof.
  intros Hne. induction m as [|[k' v'] m IH]; simpl; [done|].
  destruct (String.eqb_spec k' k) as [->|Hne'].
  - by rewrite (string_eqb_false k c).
  - simpl. by rewrite IH.
Qed.

Lemma JsMap_delete_absent {V : Type} (k : string) (m : list (string * V)) :
  JsMap.get k m = None → JsMap.delete k m = m.
Proof.
  induction m as [|[k' v'] m IH]; simpl; [done|].
  destruct (String.eqb k' k); [done|]. intros H. by rewrite IH.
Qed.

Lemma JsMap_delete_appended {V : Type} (k : string) (v : V)
    (m : list (string * V)) :
  JsMap.get k m = None → JsMap.delete k (m ++ [(k, v)]) = m.
Proof.
  induction m as [|[k' v'] m IH]; simpl.
  - by rewrite string_eqb_refl.
  - destruct (String.eqb k' k); [done|]. intros H. by rewrite IH.
Qed.

Lemma JsMap_get_appended {V : Type} (k : string) (v : V)
    (m : list (string * V)) :
  JsMap.get k m = None → JsMap.get k (m ++ [(k, v)]) = Some v.
Proof.
  induction m as [|[k' v'] m IH]; simpl.
  - by rewrite string_eqb_refl.
  - by destruct (String.eqb k' k).
Qed.

Lemma activeUsers_unregister (st : Server) (c : SocketId) :
  activeUsers (unregister st c) = JsMap.delete c (activeUsers st).
Proof.
  unfold unregister, on_disconnect. simpl.
  destruct (JsMap.get c (activeUsers st)) eqn:E; simpl; [done|].
  by rewrite JsMap_delete_absent.
Qed.

(** X5. Unregistering.  On a disconnect, a connection that had joined is
    taken out of the registry and the others are told once, with its user
    id, that it is offline; a connection that never joined leaves the
    registry as it is and nothing is sent.  No other connection's entry
    changes, and a second disconnect of the same connection sends nothing. *)
Theorem disconnect_unregisters_once (st : Server) (sid : SocketId) :
  keys_distinct st →
  (∀ user, JsMap.get sid (activeUsers st) = Some user →
     (on_disconnect st sid).2 =
       [emit (BroadcastFrom sid) "user:offline"
          (UserOffline (au_id user) sid)]) ∧
  (JsMap.get sid (activeUsers st) = None →
     (on_disconnect st sid).2 = [] ∧
     activeUsers (unregister st sid) = activeUsers st) ∧
  JsMap.get sid (activeUsers (unregister st sid)) = None ∧
  (∀ c, c ≠ sid →
     JsMap.get c (activeUsers (unregister st sid)) =
       JsMap.get c (activeUsers st)) ∧
  (on_disconnect (unregister st sid) sid).2 = [].
Proof.
  intros Hkeys.
  assert (JsMap.get sid (activeUsers (unregister st sid)) = None) as Hgone.
  { rewrite activeUsers_unregister. by apply JsMap_delete_self. }
  split_and!.
  - intros user Hget. unfold on_disconnect. simpl. by rewrite Hget.
  - intros Hget. split.
    + unfold on_disconnect. simpl. by rewrite Hget.
    + rewrite activeUsers_unregister. by apply JsMap_delete_absent.
  - done.
  - intros c Hne. rewrite activeUsers_unregister. by apply JsMap_delete_other.
  - unfold on_disconnect at 1. simpl. by rewrite Hgone.
Qed.

(** Connection ["s1"] of [chatting] disconnects. *)
Lemma disconnect_unregisters_once_witness :
  (on_disconnect chatting "s1").2 =
    [emit (BroadcastFrom "s1") "user:offline" (UserOffline (Some "u1") "s1")] ∧
  JsMap.get "s1" (activeUsers (unregister chatting "s1")) = None ∧
  (on_disconnect (unregister chatting "s1") "s1").2 = [].
Proof.
  destruct (disconnect_unregisters_once chatting "s1")
    as (Hreg & _ & Hgone & _ & Hagain).
  - unfold keys_distinct. vm_compute. apply NoDup_cons_2.
    + apply (bool_decide_eq_false_1 ("s1" ∈ ["s2"])). reflexivity.
    + apply NoDup_singleton.
  - split_and!; [|exact Hgone|exact Hagain].
    apply (Hreg (mkActiveUser (Some "u1") (Some "Ann") "s1" 2)). reflexivity.
Defined.

(** ** Presence: the next connection takes over *)

Lemma find_by_id_toString_skip (l x : list (SocketId * ActiveUser))
    (t : option UserId) :
  find_by_id_toString l t = Normal None →
  find_by_id_toString (l ++ x) t = find_by_id_toString x t.
Proof.
  induction l as [|[k user] l IH]; simpl; [done|].
  destruct (au_id user) as [i|], t as [t|]; try done.
  by destruct (String.eqb i t).
Qed.

Lemma find_no_match (l : list (SocketId * ActiveUser)) (u : UserId) :
  Forall (fun p => is_Some (au_id (snd p))) l →
  (∀ c e, (c, e) ∈ l → au_id e ≠ Some u) →
  find_by_id_toString l (Some u) = Normal None.
Proof.
  induction l as [|[k e] l IH]; simpl; [done|]. intros Hid Hno.
  apply Forall_cons in Hid as [[i Hi] Hid]. simpl in Hi. rewrite Hi.
  destruct (String.eqb_spec i u) as [->|Hiu].
  - exfalso. apply (Hno k e); [left|done].
  - apply IH; [done|]. intros c e' Hin. apply (Hno c e'). by right.
Qed.

Lemma find_after_delete (l : list (SocketId * ActiveUser)) (c1 : SocketId)
    (u : UserId) :
  NoDup (map fst l) →
  Forall (fun p => is_Some (au_id (snd p))) l →
  (∀ c e, (c, e) ∈ l → au_id e = Some u → c = c1) →
  find_by_id_toString (JsMap.delete c1 l) (Some u) = Normal None.
Proof.
  induction l as [|[k e] l IH]; simpl; [done|]. intros Hnd Hid Honly.
  apply NoDup_cons in Hnd as [Hk Hnd].
  apply Forall_cons in Hid as [[i Hi] Hid]. simpl in Hi.
  assert (∀ c e', (c, e') ∈ l → au_id e' = Some u → c = c1) as Honly'.
  { intros c e' Hin. apply (Honly c e'). by right. }
  destruct (String.eqb_spec k c1) as [->|Hne].
  - apply find_no_match; [done|]. intros c e' Hin Hu.
    apply Hk. rewrite <- (Honly' c e' Hin Hu).
    apply (list_elem_of_fmap_2 fst) in Hin. exact Hin.
  - simpl. rewrite Hi. destruct (String.eqb_spec i u) as [->|Hiu].
    + exfalso. apply Hne. apply (Honly k e); [left|done].
    + by apply IH.
Qed.

(** X6. The next connection takes over.  When all entries carry a user id,
    [c1] is the only connection registered for [u], and [u] registers under
    a new connection [c2], then once [c1] disconnects a lookup of [u] yields
    [c2]: the user stays reachable through the later connection. *)
Theorem later_connection_takes_over (st : Server) (c1 c2 : SocketId)
    (u : UserId) (now : Date) (profile : UserData) :
  keys_distinct st →
  all_identified st →
  lookup st u = Some c1 →
  (∀ c e, (c, e) ∈ activeUsers st → au_id e = Some u → c = c1) →
  JsMap.has c2 (activeUsers st) = false →
  ud_id profile = Some u →
  lookup (unregister (register st c2 now profile) c1) u = Some c2.
Proof.
  intros Hkeys Hid Hlook Honly Hnew Hprofile. unfold lookup in *.
  rewrite activeUsers_unregister, activeUsers_register,
    (JsMap_set_fresh _ _ _ Hnew).
  destruct (find_by_id_toString (activeUsers st) (Some u))
    as [[[k user]|]|] eqn:Hfind; simplify_eq.
  apply find_by_id_toString_elem in Hfind as [Hin _].
  assert (JsMap.delete c1 (activeUsers st ++
            [(c2, mkActiveUser (ud_id profile) (ud_fullName profile) c2 now)])
          = JsMap.delete c1 (activeUsers st) ++
            [(c2, mkActiveUser (ud_id profile) (ud_fullName profile) c2 now)])
    as ->.
  { clear -Hin. induction (activeUsers st) as [|[k' e'] l IH]; simpl.
    - by apply elem_of_nil in Hin.
    - destruct (String.eqb_spec k' c1); [done|]. rewrite IH; [done|].
      apply elem_of_cons in Hin as [[= -> _]|?]; done. }
  rewrite find_by_id_toString_skip by by apply find_after_delete.
  simpl. by rewrite Hprofile, string_eqb_refl.
Qed.

(** In [chatting], ["u1"] joins again from ["s3"] and then ["s1"] goes. *)
Lemma later_connection_takes_over_witness :
  lookup (unregister
            (register chatting "s3" 7 (mkUserData (Some "u1") (Some "Ann")))
            "s1") "u1" = Some "s3".
Proof.
  apply (later_connection_takes_over chatting "s1" "s3" "u1" 7).
  - unfold keys_distinct. vm_compute. apply NoDup_cons_2.
    + apply (bool_decide_eq_false_1 ("s1" ∈ ["s2"])). reflexivity.
    + apply NoDup_singleton.
  - unfold all_identified. vm_compute.
    repeat constructor; eexists; reflexivity.
  - reflexivity.
  - intros c e Hin Hu. vm_compute in Hin.
    apply elem_of_cons in Hin as [[= -> ->]|Hin]; [reflexivity|].
    apply list_elem_of_singleton in Hin as [= -> ->]. discriminate Hu.
  - reflexivity.
  - reflexivity.
Defined.

(** ** The offer relay follows presence *)

Lemma on_webrtc_offer_found (st : Server) (sid : SocketId) (u : UserId)
    (offer callId : Opaque) (k : SocketId) (user : ActiveUser) :
  find_by_id_toString (activeUsers st) (Some u) = Normal (Some (k, user)) →
  on_webrtc_offer st sid (offer_to u offer callId) =
    (st, [emit (ToRoom (Some k)) "webrtc:offer"
            (WebrtcOffer offer callId
               (JsMap.get sid (activeUsers st) ≫= au_id) sid)]).
Proof. intros H. unfold on_webrtc_offer, offer_to. simpl. by rewrite H. Qed.

(** X7. The offer relay follows presence.  While user [u] is not
    registered, an offer for [u] is dropped without any event; once [u] has
    joined under a new connection [c], the offer goes to [c] alone, with the
    offer and call id as sent, the sender's connection id and the user id the
    sender joined with; after [c] disconnects it is dropped again.  The
    relay never changes the state. *)
Theorem offer_relay_follows_presence (st : Server) (sid c : SocketId)
    (u : UserId) (now : Date) (profile : UserData) (offer callId : Opaque) :
  find_by_id_toString (activeUsers st) (Some u) = Normal None →
  JsMap.has c (activeUsers st) = false →
  ud_id profile = Some u →
  let online := register st c now profile in
  let offline := unregister online c in
  on_webrtc_offer st sid (offer_to u offer callId) = (st, []) ∧
  on_webrtc_offer online sid (offer_to u offer callId) =
    (online, [emit (ToRoom (Some c)) "webrtc:offer"
                (WebrtcOffer offer callId
                   (JsMap.get sid (activeUsers online) ≫= au_id) sid)]) ∧
  on_webrtc_offer offline sid (offer_to u offer callId) = (offline, []).
Proof.
  intros Hoff Hnew Hprofile online offline.
  assert (activeUsers online =
            activeUsers st ++
            [(c, mkActiveUser (ud_id profile) (ud_fullName profile) c now)])
    as Honline.
  { subst online. by rewrite activeUsers_register, (JsMap_set_fresh _ _ _ Hnew). }
  split_and!.
  - unfold on_webrtc_offer, offer_to. simpl. by rewrite Hoff.
  - eapply on_webrtc_offer_found. rewrite Honline.
    rewrite find_by_id_toString_skip by done. simpl.
    by rewrite Hprofile, string_eqb_refl.
  - unfold on_webrtc_offer, offer_to. simpl.
    assert (activeUsers offline = activeUsers st) as ->; [|by rewrite Hoff].
    subst offline. rewrite activeUsers_unregister, Honline.
    apply JsMap_delete_appended. by apply JsMap_get_has.
Qed.

(** A third user ["u3"] joins [chatting] from ["s3"] and leaves again;
    ["s1"] sends it an offer before, while and after. *)
Lemma offer_relay_follows_presence_witness :
  let online :=
    register chatting "s3" 7 (mkUserData (Some "u3") (Some "Cy")) in
  on_webrtc_offer chatting "s1" (offer_to "u3" (Some "sdp") (Some "call-1")) =
    (chatting, []) ∧
  on_webrtc_offer online "s1" (offer_to "u3" (Some "sdp") (Some "call-1")) =
    (online, [emit (ToRoom (Some "s3")) "webrtc:offer"
                (WebrtcOffer (Some "sdp") (Some "call-1")
                   (JsMap.get "s1" (activeUsers online) ≫= au_id) "s1")]) ∧
  on_webrtc_offer (unregister online "s3") "s1"
    (offer_to "u3" (Some "sdp") (Some "call-1")) =
    (unregister online "s3", []).
Proof.
  apply (offer_relay_follows_presence chatting "s1" "s3" "u3" 7); reflexivity.
Defined.

(** ** A join without identity *)

(** X13. A join without payload blocks later users.  A [user:join] sent
    without payload is answered with "Failed to join", yet leaves an entry
    without user id for the connection.  As long as that entry is there, a
    user who was not registered before and joins afterwards is found by no
    lookup: an offer for that user is answered with "Failed to send call
    offer" instead of being relayed. *)
Theorem join_without_identity_blocks (st : Server) (s0 c sid : SocketId)
    (u : UserId) (now now' : Date) (profile : UserData)
    (offer callId : Opaque) :
  JsMap.has s0 (activeUsers st) = false →
  find_by_id_toString (activeUsers st) (Some u) = Normal None →
  c ≠ s0 →
  JsMap.has c (activeUsers st) = false →
  ud_id profile = Some u →
  let blocked := (on_user_join st s0 now None).1 in
  (on_user_join st s0 now None).2 = [error_to s0 "Failed to join"] ∧
  JsMap.get s0 (activeUsers blocked) = Some (mkActiveUser None None s0 now) ∧
  registered_for (register blocked c now' profile) c u ∧
  lookup (register blocked c now' profile) u = None ∧
  on_webrtc_offer (register blocked c now' profile) sid
    (offer_to u offer callId) =
    (register blocked c now' profile,
     [error_to sid "Failed to send call offer"]).
Proof.
  intros Hs0 Hoff Hne Hnew Hprofile blocked.
  assert (activeUsers blocked =
            activeUsers st ++ [(s0, mkActiveUser None None s0 now)])
    as Hblocked.
  { subst blocked. simpl. by rewrite (JsMap_set_fresh _ _ _ Hs0). }
  assert (JsMap.has c (activeUsers blocked) = false) as Hnew'.
  { apply JsMap_get_has. rewrite Hblocked.
    apply JsMap_get_None_key. rewrite map_app. simpl.
    rewrite elem_of_app, list_elem_of_singleton.
    intros [Hin|?]; [|done].
    apply JsMap_get_has in Hnew. by apply JsMap_get_None_key in Hnew. }
  assert (find_by_id_toString
            (activeUsers (register blocked c now' profile)) (Some u) = Throw)
    as Hthrow.
  { rewrite activeUsers_register, (JsMap_set_fresh _ _ _ Hnew'), Hblocked.
    rewrite <- app_assoc. by rewrite find_by_id_toString_skip. }
  split_and!.
  - done.
  - rewrite Hblocked. apply JsMap_get_appended. by apply JsMap_get_has.
  - unfold registered_for.
    rewrite activeUsers_register, (JsMap_set_fresh _ _ _ Hnew').
    eexists. split; [apply elem_of_app; right; left|done].
  - unfold lookup. by rewrite Hthrow.
  - unfold on_webrtc_offer, offer_to. cbn [of_targetUserId].
    by rewrite Hthrow.
Qed.

(** On a fresh server ["s0"] joins without payload; ["u9"] joins later from
    ["s9"] and cannot be reached. *)
Lemma join_without_identity_blocks_witness :
  let blocked := (on_user_join (initial ∅) "s0" 1 None).1 in
  let later := register blocked "s9" 2 (mkUserData (Some "u9") (Some "Ni")) in
  (on_user_join (initial ∅) "s0" 1 None).2 = [error_to "s0" "Failed to join"] ∧
  JsMap.get "s0" (activeUsers blocked) = Some (mkActiveUser None None "s0" 1) ∧
  registered_for later "s9" "u9" ∧
  lookup later "u9" = None ∧
  on_webrtc_offer later "s1" (offer_to "u9" (Some "sdp") (Some "call-1")) =
    (later, [error_to "s1" "Failed to send call offer"]).
Proof.
  apply (join_without_identity_blocks (initial ∅) "s0" "s9" "s1" "u9" 1 2);
    [reflexivity|reflexivity|discriminate|reflexivity|reflexivity].
Defined.

(** ** The signaling relay keeps no state *)

Lemma handle_uncaught (rev : Revision) (st : Server) (sid : SocketId)
    (now : Date) (i : Input) :
  handle rev (uncaught st) sid now i = (uncaught st, []).
Proof. by destruct i. Qed.

(** X8. The signaling relay keeps no state, with one exception.  In either
    revision, an offer, answer, candidate, end-of-call, invitation,
    [callUser], [answerCall] or [callEnded] event leaves the whole server
    state as it was, whatever its payload and also when it has none; only an
    invitation without payload is excepted, and only in the later revision,
    the one that listens for it.  There, on a connected socket, it throws
    outside the handler's [try], as [joinVideoCallRoom] without payload
    does: the process stops without sending anything, presence, sockets and
    rooms are lost, the stored messages and users remain, and no later input
    is handled.  An answer, a candidate and an
    end-of-call notice go to the room of the target connection id as given,
    with the payload as sent and the sender's connection id, whether or not
    either side has joined. *)
Theorem signaling_is_stateless (rev : Revision) (st : Server)
    (sid : SocketId) (now : Date) :
  (∀ e, is_signaling e = true →
        rev = server_js ∨ e ≠ videoCallInvitation None →
        (dispatch rev st sid now e).1 = st) ∧
  (∀ e, is_Some (sockets st !! sid) →
        e = videoCallInvitation None ∨ e = joinVideoCallRoom None →
   let down := (handle video_rooms st sid now (Client e)).1 in
   handle video_rooms st sid now (Client e) = (down, []) ∧
   running down = false ∧ activeUsers down = [] ∧ sockets down = ∅ ∧
   rooms down = ∅ ∧ Messages down = Messages st ∧ Users down = Users st ∧
   ∀ trace, run video_rooms down trace = (down, [])) ∧
  (∀ d, on_webrtc_answer st sid (Some d) =
          (st, [emit (ToRoom (an_targetSocketId d)) "webrtc:answer"
                  (WebrtcAnswer (an_answer d) (an_callId d) sid)])) ∧
  (∀ d, on_webrtc_ice_candidate st sid (Some d) =
          (st, [emit (ToRoom (ic_targetSocketId d)) "webrtc:ice-candidate"
                  (WebrtcIceCandidate (ic_candidate d) (ic_callId d) sid)])) ∧
  (∀ d, on_call_end st sid (Some d) =
          (st, [emit (ToRoom (ce_targetSocketId d)) "call:ended"
                  (CallEnded (ce_callId d) sid)])).
Proof.
  split_and!; try done.
  - intros e He Hex.
    destruct e as [d|d|d|d|d|d|d|d|d|d|d|d|d|d|]; try done; simpl.
    + destruct rev; [|done]. unfold on_webrtc_offer. destruct d; [|done].
      by destruct (find_by_id_toString _ _) as [[[??]|]|].
    + destruct rev; [|done]. by destruct d.
    + destruct rev; [|done]. by destruct d.
    + destruct rev; [|done]. by destruct d.
    + destruct d as [d|], rev; try done.
      * unfold on_videoCallInvitation.
        by destruct (find_by_id_toString _ _) as [[[??]|]|].
      * by destruct Hex.
    + destruct rev; [done|]. by destruct d.
    + destruct rev; [done|]. by destruct d.
    + by destruct rev.
  - intros e Hconn He. cbv zeta. unfold handle.
    rewrite (bool_decide_eq_true_2 _ Hconn).
    assert (dispatch video_rooms st sid now e = (uncaught st, [])) as ->
      by by destruct He as [->| ->].
    simpl. split_and!; try done.
    induction trace as [|[[sid' now'] i] trace IH]; [done|].
    simpl. rewrite handle_uncaught. by rewrite IH.
Qed.

(** On [chatting]: an answer passes through; ["s1"] then sends an invitation
    without payload to the later revision, and the connection ["s9"] and the
    invitation of ["s2"] that follow find the process down. *)
Lemma signaling_is_stateless_witness :
  (dispatch server_js chatting "s2" 9
     (webrtc_answer (Some (mkAnswerData (Some "s1") (Some "sdp")
                             (Some "call-1"))))).1 = chatting ∧
  let down :=
    (handle video_rooms chatting "s1" 9 (Client (videoCallInvitation None))).1 in
  handle video_rooms chatting "s1" 9 (Client (videoCallInvitation None)) =
    (down, []) ∧
  activeUsers down = [] ∧ Messages down = Messages chatting ∧
  run video_rooms down
    [("s9", 10, Connection);
     ("s2", 11, Client (videoCallInvitation
                          (Some (mkInvitationData (Some "u1") (Some "Bob")
                                   (Some "m1") (Some "url")))))] = (down, []).
Proof.
  split.
  - apply (signaling_is_stateless server_js chatting "s2" 9);
      [reflexivity|by left].
  - destruct (signaling_is_stateless video_rooms chatting "s1" 9)
      as (_ & H & _).
    destruct (H (videoCallInvitation None))
      as (Hdown & _ & Hau & _ & _ & Hms & _ & Hrun); [by eexists|by left|].
    cbv zeta. split_and!; [exact Hdown|exact Hau|exact Hms|apply Hrun].
Defined.

(** ** Delivery of a chat message *)

Lemma find_conversation_app (c : string) (db l : list Message) :
  find_conversation c (db ++ l) =
    find_conversation c db ++ find_conversation c l.
Proof. apply List.filter_app. Qed.

Lemma history_all (st : Server) (c : string) (n : nat) (m : Message) :
  length (find_conversation c (Messages st)) ≤ n → 0 < n →
  m ∈ find_conversation c (Messages st) → m ∈ history st c n.
Proof.
  intros Hlen Hn Hin. unfold history, history_query.
  rewrite (limit_positive _ _ Hn), elem_of_reverse, take_ge.
  - by rewrite sort_createdAt_desc_Permutation.
  - by rewrite sort_createdAt_desc_Permutation.
Qed.

Lemma append_stored (st : Server) (sid : SocketId) (now : Date)
    (d : ChatMessageData) :
  has_required_fields d = true →
  ∃ m, Message_create (Messages st) now (messageData_of d) = Some m ∧
       cm_senderId d = Some (senderId m) ∧
       cm_targetUserId d = Some (receiverId m) ∧
       cm_message d = Some (text m) ∧
       conversationId m =
         mkConversationId (cm_senderId d) (cm_targetUserId d).
Proof.
  rewrite (has_required_fields_create st now). intros H.
  apply bool_decide_eq_true in H as [m Hm]. exists m. split; [done|].
  apply Message_create_fields in Hm as (Hs & Hr & Ht & Hc & _).
  simpl in *. split_and!; try done. by apply required_string_Some in Ht as [? _].
Qed.

(** X9. A message for an offline recipient.  When the draft passes
    validation and no registered connection belongs to the target user, the
    message is stored, the sender gets the [chat:message:sent] confirmation
    and nothing else is sent.  The message is then part of the history of
    the conversation as the recipient addresses it, for every limit larger
    than the number of messages the conversation had. *)
Theorem offline_recipient_gets_it_later (st : Server) (sid : SocketId)
    (now : Date) (d : ChatMessageData) :
  has_required_fields d = true →
  find_by_id_toString (activeUsers st) (cm_targetUserId d) = Normal None →
  ∃ m,
    append st sid now d =
      (with_Messages st (Messages st ++ [m]),
       [emit (ToSocket sid) "chat:message:sent"
          (ChatMessageP (sent_event m (cm_targetUserId d)))]) ∧
    cm_message d = Some (text m) ∧
    ∀ n,
      length (find_conversation
                (mkConversationId (cm_targetUserId d) (cm_senderId d))
                (Messages st)) < n →
      m ∈ history (append st sid now d).1
            (mkConversationId (cm_targetUserId d) (cm_senderId d)) n.
Proof.
  intros Hok Hoff.
  destruct (append_stored st sid now d Hok) as (m & Hm & _ & _ & Ht & Hc).
  exists m.
  assert (append st sid now d =
            (with_Messages st (Messages st ++ [m]),
             [emit (ToSocket sid) "chat:message:sent"
                (ChatMessageP (sent_event m (cm_targetUserId d)))])) as Heq.
  { unfold append, on_chat_message. by rewrite Hm, Hoff. }
  split_and!; [done|done|].
  intros n Hn. rewrite Heq. simpl fst.
  rewrite (mkConversationId_comm (cm_targetUserId d)) in *.
  assert (find_conversation
            (mkConversationId (cm_senderId d) (cm_targetUserId d))
            (Messages st ++ [m]) =
          find_conversation
            (mkConversationId (cm_senderId d) (cm_targetUserId d))
            (Messages st) ++ [m]) as Hconv.
  { rewrite find_conversation_app. f_equal. unfold find_conversation. simpl.
    by rewrite Hc, string_eqb_refl. }
  apply history_all; simpl; rewrite ?Hconv.
  - rewrite length_app. simpl. lia.
  - lia.
  - apply elem_of_app. right. left.
Qed.

(** ["u1"] of [chatting] writes to ["u3"], who is not connected. *)
Lemma offline_recipient_gets_it_later_witness :
  let d := mkChatMessageData (Some "u3") (Some "ping") (Some "u1") None None
             None None None in
  ∃ m,
    append chatting "s1" 9 d =
      (with_Messages chatting (Messages chatting ++ [m]),
       [emit (ToSocket "s1") "chat:message:sent"
          (ChatMessageP (sent_event m (Some "u3")))]) ∧
    cm_message d = Some (text m) ∧
    ∀ n,
      length (find_conversation (mkConversationId (Some "u3") (Some "u1"))
                (Messages chatting)) < n →
      m ∈ history (append chatting "s1" 9 d).1
            (mkConversationId (Some "u3") (Some "u1")) n.
Proof.
  apply (offline_recipient_gets_it_later chatting "s1" 9
           (mkChatMessageData (Some "u3") (Some "ping") (Some "u1") None None
              None None None)); reflexivity.
Defined.

(** X10. Stored, yet reported as failed.  When the draft passes validation
    the message is stored before the recipient is looked up.  If the lookup
    then throws because an entry met first has no user id, or if the
    recipient is online and the sender has no user document, the sender is
    told "Failed to send message" although the message is in the collection,
    the recipient is sent nothing and no confirmation is sent. *)
Theorem stored_yet_reported_failed (st : Server) (sid : SocketId)
    (now : Date) (d : ChatMessageData) (s : UserId) :
  has_required_fields d = true →
  cm_senderId d = Some s →
  find_by_id_toString (activeUsers st) (cm_targetUserId d) = Throw ∨
  (recipient_online st d ∧ Users st !! s = None) →
  ∃ m, append st sid now d =
         (with_Messages st (Messages st ++ [m]),
          [error_to sid "Failed to send message"]) ∧
       cm_message d = Some (text m).
Proof.
  intros Hok Hs Hcase.
  destruct (append_stored st sid now d Hok) as (m & Hm & Hsm & _ & Ht & _).
  exists m. split; [|done]. unfold append, on_chat_message. rewrite Hm.
  destruct Hcase as [->|[[k [user Hfound]] Hnone]]; [done|].
  rewrite Hfound. rewrite Hs in Hsm. injection Hsm as <-. by rewrite Hnone.
Qed.

(** ["u1"] writes to ["u2"], who is online, on a server that has no user
    document for ["u1"]. *)
Lemma stored_yet_reported_failed_witness :
  ∃ m, append undocumented "s1" 9 (text_draft "hi") =
         (with_Messages undocumented (Messages undocumented ++ [m]),
          [error_to "s1" "Failed to send message"]) ∧
       cm_message (text_draft "hi") = Some (text m).
Proof.
  apply (stored_yet_reported_failed undocumented "s1" 9 (text_draft "hi") "u1");
    [reflexivity|reflexivity|].
  right. split; [|reflexivity].
  exists "s2", (mkActiveUser (Some "u2") (Some "Bob") "s2" 2). reflexivity.
Defined.

(** ** Room roles: defaults and a waiter that leaves *)

Lemma join_empty_room (st : Server) (a : SocketId) (d : JoinRoomData) :
  room_members st (jr_meetingId d) = [] →
  on_joinVideoCallRoom st a d =
    (with_sockets (with_rooms st (socket_join a (jr_meetingId d) (rooms st)))
       (<[a := mkSocketObj (jr_userName d) (jr_nativeLanguage d)]> (sockets st)),
     [emit (ToSocket a) "roomRole"
        (RoomRole waiter None "Waiting for other participant...")]) ∧
  socket_join a (jr_meetingId d) (rooms st) !! jr_meetingId d = Some [a].
Proof.
  intros Hempty.
  assert (socket_join a (jr_meetingId d) (rooms st) !! jr_meetingId d
          = Some [a]) as Hjoin.
  { unfold socket_join. rewrite lookup_insert_eq.
    unfold room_members in Hempty. by rewrite Hempty. }
  split; [|done]. unfold on_joinVideoCallRoom. cbv zeta.
  cbn [rooms with_rooms]. by rewrite Hjoin.
Qed.

(** X11. Room roles with their defaults.  When [a] joins an empty room and
    [b] then joins it, [a] is told it is the waiter and [b] that it is the
    caller of [a].  The caller is given the waiter's name and language as
    the waiter sent them, or "Other participant" and "en-US" where the
    waiter sent none or an empty one; the waiter's notice carries the
    caller's name as sent, absent if it was absent, and the caller's
    language or "en-US". *)
Theorem roles_with_defaults (st : Server) (a b : SocketId) (room : string)
    (nameA langA nameB langB : option string) :
  a ≠ b →
  room_members st room = [] →
  let first := on_joinVideoCallRoom st a (mkJoinRoomData room nameA langA) in
  let second :=
    on_joinVideoCallRoom first.1 b (mkJoinRoomData room nameB langB) in
  first.2 =
    [emit (ToSocket a) "roomRole"
       (RoomRole waiter None "Waiting for other participant...")] ∧
  second.2 =
    [emit (ToSocket b) "roomRole"
       (RoomRole caller
          (Some (mkPeer a (or_default nameA "Other participant")
                   (or_default langA "en-US")))
          "Ready to start call");
     emit (ToSocket a) "expectingCallFrom"
       (ExpectingCallFrom b nameB (or_default langB "en-US"))].
Proof.
  intros Hab Hempty first second.
  destruct (join_empty_room st a (mkJoinRoomData room nameA langA) Hempty)
    as [Hfirst Hjoin1]. cbn [jr_meetingId jr_userName jr_nativeLanguage] in *.
  fold first in Hfirst.
  assert (socket_join b room (rooms first.1) !! room = Some [a; b]) as Hjoin2.
  { rewrite Hfirst. cbn [fst rooms with_sockets with_rooms].
    unfold socket_join at 1. rewrite lookup_insert_eq, Hjoin1. simpl.
    unfold Set_add. rewrite bool_decide_eq_false_2; [done|].
    intros Hin. by apply list_elem_of_singleton in Hin. }
  assert (String.eqb a b = false) as Hneq by by apply string_eqb_false.
  subst second. unfold on_joinVideoCallRoom. cbv zeta.
  cbn [rooms with_rooms with_sockets jr_meetingId jr_userName
       jr_nativeLanguage sockets].
  rewrite !Hjoin2. cbn [length Nat.eqb default from_option id List.find].
  rewrite Hneq. cbn [negb].
  rewrite Hfirst. cbn [fst sockets with_sockets with_rooms].
  rewrite lookup_insert_ne by done. rewrite lookup_insert_eq.
  by cbn [videoUserName videoNativeLanguage snd fst].
Qed.

(** ["s1"] joins without name and language, ["s2"] without language. *)
Lemma roles_with_defaults_witness :
  let st := (run video_rooms (initial ∅) (take 3 three_joiners)).1 in
  let first := on_joinVideoCallRoom st "s1" (mkJoinRoomData "m1" None None) in
  let second :=
    on_joinVideoCallRoom first.1 "s2" (mkJoinRoomData "m1" (Some "Bob") None) in
  first.2 =
    [emit (ToSocket "s1") "roomRole"
       (RoomRole waiter None "Waiting for other participant...")] ∧
  second.2 =
    [emit (ToSocket "s2") "roomRole"
       (RoomRole caller (Some (mkPeer "s1" "Other participant" "en-US"))
          "Ready to start call");
     emit (ToSocket "s1") "expectingCallFrom"
       (ExpectingCallFrom "s2" (Some "Bob") "en-US")].
Proof.
  apply (roles_with_defaults _ "s1" "s2" "m1" None None (Some "Bob") None);
    [discriminate|reflexivity].
Defined.

Lemma rooms_unregister (st : Server) (c : SocketId) :
  rooms (unregister st c) = leave_all c (rooms st).
Proof.
  unfold unregister, on_disconnect. simpl.
  by destruct (JsMap.get c (activeUsers st)).
Qed.

(** X12. A waiter that leaves frees the room.  When [a] joins an empty room
    and disconnects before anyone else joins, the room is empty again: the
    next connection to join it is told it is the waiter, and no notice goes
    to [a]. *)
Theorem waiter_leaving_frees_room (st : Server) (a b : SocketId)
    (da db : JoinRoomData) :
  room_members st (jr_meetingId da) = [] →
  jr_meetingId db = jr_meetingId da →
  let left := unregister (joinRoom st a da) a in
  room_members left (jr_meetingId da) = [] ∧
  (on_joinVideoCallRoom left b db).2 =
    [emit (ToSocket b) "roomRole"
       (RoomRole waiter None "Waiting for other participant...")] ∧
  room_members (joinRoom left b db) (jr_meetingId da) = [b].
Proof.
  intros Hempty Hroom left.
  destruct (join_empty_room st a da Hempty) as [Hfirst Hjoin1].
  assert (room_members left (jr_meetingId da) = []) as Hleft.
  { subst left. unfold room_members. rewrite rooms_unregister.
    unfold leave_all. rewrite lookup_omap. unfold joinRoom. rewrite Hfirst.
    cbn [fst rooms with_sockets with_rooms]. rewrite Hjoin1. simpl.
    by rewrite string_eqb_refl. }
  rewrite <- Hroom in Hleft.
  destruct (join_empty_room left b db Hleft) as [Hsecond Hjoin2].
  rewrite <- Hroom. split_and!; [done|by rewrite Hsecond|].
  unfold room_members, joinRoom. rewrite Hsecond.
  cbn [fst rooms with_sockets with_rooms]. by rewrite Hjoin2.
Qed.

(** ["s1"] joins room ["m1"] and disconnects; ["s2"] joins next. *)
Lemma waiter_leaving_frees_room_witness :
  let st := (run video_rooms (initial ∅) (take 3 three_joiners)).1 in
  let da := mkJoinRoomData "m1" (Some "Ann") (Some "fr-FR") in
  let db := mkJoinRoomData "m1" (Some "Bob") (Some "de-DE") in
  let left := unregister (joinRoom st "s1" da) "s1" in
  room_members left "m1" = [] ∧
  (on_joinVideoCallRoom left "s2" db).2 =
    [emit (ToSocket "s2") "roomRole"
       (RoomRole waiter None "Waiting for other participant...")] ∧
  room_members (joinRoom left "s2" db) "m1" = ["s2"].
Proof.
  apply (waiter_leaving_frees_room _ "s1" "s2"
           (mkJoinRoomData "m1" (Some "Ann") (Some "fr-FR"))
           (mkJoinRoomData "m1" (Some "Bob") (Some "de-DE"))); reflexivity.
Defined.

(** * Properties of the client's socket service *)

Module SocketServiceFacts.
Import SocketService.

Lemma handleReconnection_max (svc : t) :
  maxReconnectAttempts (handleReconnection svc).1 = maxReconnectAttempts svc.
Proof. unfold handleReconnection. by destruct (Nat.ltb _ _). Qed.

Lemma setupEventHandlers_fields (svc : t) :
  reconnectAttempts (setupEventHandlers svc) = reconnectAttempts svc ∧
  maxReconnectAttempts (setupEventHandlers svc) = maxReconnectAttempts svc ∧
  eventHandlers (setupEventHandlers svc) = eventHandlers svc.
Proof. unfold setupEventHandlers. by destruct (socket svc). Qed.

Lemma reconnect_timer_fields (svc : t) :
  reconnectAttempts (reconnect_timer svc) = reconnectAttempts svc ∧
  maxReconnectAttempts (reconnect_timer svc) = maxReconnectAttempts svc ∧
  eventHandlers (reconnect_timer svc) = eventHandlers svc.
Proof.
  unfold reconnect_timer.
  by destruct (setupEventHandlers_fields
                 (mk (Some io) (reconnectAttempts svc)
                    (maxReconnectAttempts svc) (eventHandlers svc)))
    as (-> & -> & ->).
Qed.

Lemma retries_from (k : nat) (svc : t) :
  reconnectAttempts svc ≤ maxReconnectAttempts svc →
  (retries k svc).2 =
    map (fun i => (2 ^ N.of_nat i * 1000)%N)
      (seq (S (reconnectAttempts svc))
         (min k (maxReconnectAttempts svc - reconnectAttempts svc))) ∧
  reconnectAttempts (retries k svc).1 =
    reconnectAttempts svc +
    min k (maxReconnectAttempts svc - reconnectAttempts svc) ∧
  maxReconnectAttempts (retries k svc).1 = maxReconnectAttempts svc.
Proof.
  revert svc. induction k as [|k IH]; intros svc Hle.
  - simpl. split_and!; [done|lia|done].
  - cbn [retries]. unfold handleReconnection.
    destruct (Nat.ltb_spec (reconnectAttempts svc) (maxReconnectAttempts svc))
      as [Hlt|Hge].
    + set (svc1 := mk (socket_close <$> socket svc) (S (reconnectAttempts svc))
                     (maxReconnectAttempts svc) (eventHandlers svc)).
      destruct (reconnect_timer_fields svc1) as (Ha & Hm & _).
      destruct (IH (reconnect_timer svc1)) as (Hd & Hcount & Hmax).
      { rewrite Ha, Hm. simpl. lia. }
      rewrite Ha, Hm in Hd, Hcount. rewrite Hm in Hmax.
      destruct (retries k (reconnect_timer svc1)) as [svc2 delays].
      subst svc1.
      cbn [fst snd reconnectAttempts maxReconnectAttempts] in *.
      replace (min (S k) (maxReconnectAttempts svc - reconnectAttempts svc))
        with (S (min k (maxReconnectAttempts svc -
                        S (reconnectAttempts svc)))) by lia.
      cbn [seq map]. rewrite Hd. split_and!; [done|lia|done].
    + destruct (reconnect_timer_fields svc) as (Ha & Hm & _).
      destruct (IH (reconnect_timer svc)) as (Hd & Hcount & Hmax).
      { rewrite Ha, Hm. lia. }
      rewrite Ha, Hm in Hd, Hcount. rewrite Hm in Hmax.
      destruct (retries k (reconnect_timer svc)) as [svc2 delays].
      cbn [fst snd] in *.
      replace (maxReconnectAttempts svc - reconnectAttempts svc) with 0
        in * by lia.
      rewrite Nat.min_0_r in *. split_and!; [done|lia|done].
Qed.

(** X14. Reconnection backs off and gives up.  Starting with the counter at
    0, [k] calls of [handleReconnection], each followed by the callback of
    its timer and none by a ["connect"] event, set timers of 2, 4, 8, ...
    seconds, one per call, for the first [maxReconnectAttempts] calls and
    none after that; the counter ends at the number of timers set.  While
    the counter is at the maximum a further call changes nothing. *)
Theorem reconnection_backs_off (k : nat) (svc : t) :
  reconnectAttempts svc = 0 →
  (retries k svc).2 =
    map (fun i => (2 ^ N.of_nat i * 1000)%N)
      (seq 1 (min k (maxReconnectAttempts svc))) ∧
  reconnectAttempts (retries k svc).1 = min k (maxReconnectAttempts svc) ∧
  (∀ svc', maxReconnectAttempts svc' ≤ reconnectAttempts svc' →
           handleReconnection svc' = (svc', None)).
Proof.
  intros H0. destruct (retries_from k svc) as (Hd & Hc & _); [lia|].
  rewrite H0, Nat.sub_0_r in *. split_and!; [done|done|].
  intros svc' Hfull. unfold handleReconnection.
  by destruct (Nat.ltb_spec (reconnectAttempts svc')
                 (maxReconnectAttempts svc')); [lia|].
Qed.

(** Seven server disconnects in a row after a first connect. *)
Lemma reconnection_backs_off_witness :
  (retries 7 (connect None new)).2 =
    [2000; 4000; 8000; 16000; 32000]%N ∧
  reconnectAttempts (retries 7 (connect None new)).1 = 5.
Proof.
  destruct (reconnection_backs_off 7 (connect None new))
    as (Hd & Hc & _); [reflexivity|].
  split; [exact Hd|exact Hc].
Defined.

Lemma foldl_socket_on (hs : list (string * Listener)) (s : Socket) :
  foldl (fun s p => socket_on (fst p) (snd p) s) s hs =
    mkSocket (connected s) (listeners s ++ hs).
Proof.
  revert s. induction hs as [|[ev l] hs IH]; intros s; simpl.
  - rewrite app_nil_r. by destruct s.
  - rewrite IH. simpl. by rewrite <- app_assoc.
Qed.

Lemma setupEventHandlers_socket (svc : t) (s : Socket) :
  socket svc = Some s →
  socket (setupEventHandlers svc) =
    Some (mkSocket (connected s)
            (listeners s ++ eventHandlers svc ++
             [("connect", reset_on_connect);
              ("disconnect", reconnect_on_disconnect);
              ("connect_error", log_connect_error)])).
Proof.
  intros Hs. unfold setupEventHandlers. rewrite Hs. simpl.
  rewrite foldl_socket_on. unfold socket_on. simpl.
  by rewrite <- !app_assoc.
Qed.

Lemma joins_sent_setup (c : bool) (l1 hs l3 : list (string * Listener)) :
  Forall (fun p => ∃ h, snd p = wrappedHandler h) hs →
  joins_sent (mkSocket c (l1 ++ hs ++ l3)) =
    joins_sent (mkSocket c l1) ++ joins_sent (mkSocket c l3).
Proof.
  intros Hhs. unfold joins_sent. simpl. rewrite !omap_app.
  f_equal. rewrite <- (app_nil_l (omap _ l3)) at 2. f_equal.
  induction Hhs as [|[ev l] hs [h Hh] _ IH]; [done|].
  simpl in *. by rewrite Hh.
Qed.

Lemma resets_counter_setup (c : bool) (l1 hs : list (string * Listener)) :
  resets_counter
    (mkSocket c (l1 ++ hs ++
                 [("connect", reset_on_connect);
                  ("disconnect", reconnect_on_disconnect);
                  ("connect_error", log_connect_error)])) = true.
Proof.
  unfold resets_counter. simpl. rewrite !existsb_app. simpl.
  by rewrite !orb_true_r.
Qed.

(** X15. Only the first connect joins.  With the application's handlers
    stored, a service without a connected socket that calls
    [connect(userData)] has, once its socket connects, sent [user:join]
    with that user data exactly once.  A socket made by a reconnection,
    once it connects, resets the attempt counter but sends no [user:join];
    from the moment a reconnection is started until that socket connects,
    [emit] returns false and sends nothing. *)
Theorem only_first_connect_joins (svc : t) (userData : option UserData) :
  only_wrapped svc →
  isConnected svc = false →
  (socket_connects (connect userData svc)).2 = [userData] ∧
  isConnected (socket_connects (connect userData svc)).1 = true ∧
  (∀ svc', eventHandlers svc' = eventHandlers svc →
     (socket_connects (reconnect_timer svc')).2 = [] ∧
     reconnectAttempts (socket_connects (reconnect_timer svc')).1 = 0 ∧
     (∀ event data, emit event data (reconnect_timer svc') = (false, None)) ∧
     (reconnectAttempts svc' < maxReconnectAttempts svc' →
      ∀ event data,
        emit event data (handleReconnection svc').1 = (false, None))).
Proof.
  intros Hwrapped Hoff.
  set (fresh := mk (Some (socket_on "error" log_error
                     (socket_on "disconnect" reconnect_on_disconnect
                        (socket_on "connect_error" reject_on_connect_error
                           (socket_on "connect" (join_on_connect userData)
                              io)))))
           (reconnectAttempts svc) (maxReconnectAttempts svc)
           (eventHandlers svc)).
  assert (connect userData svc = setupEventHandlers fresh) as ->.
  { unfold connect. unfold isConnected in Hoff.
    destruct (socket svc) as [s|]; [|done]. by rewrite Hoff. }
  split_and!.
  - unfold socket_connects.
    rewrite (setupEventHandlers_socket fresh _ eq_refl). cbn [snd].
    by rewrite joins_sent_setup.
  - unfold socket_connects, isConnected.
    by rewrite (setupEventHandlers_socket fresh _ eq_refl).
  - intros svc' Hsame. unfold reconnect_timer.
    set (again := mk (Some io) (reconnectAttempts svc')
                    (maxReconnectAttempts svc') (eventHandlers svc')).
    pose proof (setupEventHandlers_socket again io eq_refl) as Hsock.
    split_and!.
    + unfold socket_connects. rewrite Hsock. cbn [snd].
      rewrite joins_sent_setup; [done|]. simpl. by rewrite Hsame.
    + unfold socket_connects. rewrite Hsock. cbn [fst reconnectAttempts].
      by rewrite (resets_counter_setup (connected io) (listeners io)).
    + intros event data. unfold emit, isConnected. by rewrite Hsock.
    + intros Hlt event data. unfold emit, isConnected, handleReconnection.
      destruct (Nat.ltb_spec (reconnectAttempts svc')
                  (maxReconnectAttempts svc')); [|lia].
      simpl. by destruct (socket svc').
Qed.
(** A first connect with the data of ["u1"], then a reconnection. *)
Lemma only_first_connect_joins_witness :
  (socket_connects (connect (Some (mkUserData (Some "u1") (Some "Ann")))
                      (on "chat:message" 1 new))).2 =
    [Some (mkUserData (Some "u1") (Some "Ann"))] ∧
  (socket_connects
     (reconnect_timer
        (handleReconnection
           (connect (Some (mkUserData (Some "u1") (Some "Ann")))
              (on "chat:message" 1 new))).1)).2 = [].
Proof.
  destruct (only_first_connect_joins (on "chat:message" 1 new)
              (Some (mkUserData (Some "u1") (Some "Ann"))))
    as (Hfirst & _ & Hlater).
  - unfold only_wrapped. simpl. apply Forall_singleton. by eexists.
  - reflexivity.
  - split; [exact Hfirst|]. apply Hlater. reflexivity.
Defined.

Lemma socket_off_deaf (event : string) (s : Socket) (p : string * Listener) :
  p ∈ listeners (socket_off event s) → fst p ≠ event.
Proof.
  unfold socket_off. simpl. intros Hin Heq.
  apply list_elem_of_In, List.filter_In in Hin as [_ Hp].
  rewrite Heq, string_eqb_refl in Hp. done.
Qed.

Lemma JsMap_delete_elem {V : Type} (k : string) (m : list (string * V))
    (p : string * V) :
  NoDup (map fst m) → p ∈ JsMap.delete k m → p ∈ m ∧ fst p ≠ k.
Proof.
  induction m as [|[k' v'] m IH]; simpl.
  { intros _ H. by apply elem_of_nil in H. }
  intros Hnd. apply NoDup_cons in Hnd as [Hk' Hnd].
  destruct (String.eqb_spec k' k) as [->|Hne].
  - intros Hin. split; [by right|]. intros <-. apply Hk'.
    apply (list_elem_of_fmap_2 fst) in Hin. exact Hin.
  - intros Hin. apply elem_of_cons in Hin as [->|Hin].
    + split; [left|done].
    + destruct (IH Hnd Hin). split; [by right|done].
Qed.

(** X16. [off] silences an event for good.  After [off(event)] the stored
    handlers have no entry for the event and the current socket has no
    listener for it at all, the service's own included: after
    [off("disconnect")] nothing reacts to a disconnect any more.  A socket
    made by a later reconnection has no listener for the event either,
    unless it is one of the three events the service itself listens to. *)
Theorem off_silences_event (event : string) (svc : t) :
  NoDup (map fst (eventHandlers svc)) →
  JsMap.get event (eventHandlers (off event svc)) = None ∧
  deaf_to event (off event svc) ∧
  (basic_event event = false → deaf_to event (reconnect_timer (off event svc))).
Proof.
  intros Hnd. split_and!.
  - simpl. by apply JsMap_delete_self.
  - intros s Hs p Hin. simpl in Hs.
    destruct (socket svc) as [s0|]; [|done]. injection Hs as <-.
    by apply (socket_off_deaf _ s0).
  - intros Hbasic s Hs p Hin. unfold reconnect_timer in Hs.
    rewrite (setupEventHandlers_socket
               (mk (Some io) (reconnectAttempts (off event svc))
                  (maxReconnectAttempts (off event svc))
                  (eventHandlers (off event svc))) io eq_refl) in Hs.
    injection Hs as <-. simpl in Hin.
    apply elem_of_app in Hin as [Hin|Hin].
    + by apply (JsMap_delete_elem event (eventHandlers svc)).
    + unfold basic_event in Hbasic.
      apply orb_false_iff in Hbasic as [Hbasic Hce].
      apply orb_false_iff in Hbasic as [Hc Hd].
      apply String.eqb_neq in Hc, Hd, Hce.
      repeat (apply elem_of_cons in Hin as [->|Hin]; [simpl; congruence|]).
      by apply elem_of_nil in Hin.
Qed.

(** A connected page takes its ["disconnect"] handler off again. *)
Lemma off_silences_event_witness :
  JsMap.get "disconnect"
    (eventHandlers (off "disconnect"
                      (on "disconnect" 2 (connect None new)))) = None ∧
  deaf_to "disconnect" (off "disconnect" (on "disconnect" 2 (connect None new))).
Proof.
  destruct (off_silences_event "disconnect"
              (on "disconnect" 2 (connect None new))) as (Hget & Hdeaf & _).
  - simpl. apply NoDup_singleton.
  - split; [exact Hget|exact Hdeaf].
Defined.

(** X17. A second [on] for the same event.  Registering a second handler
    for an event replaces the stored one, so a socket made by a later
    reconnection gets the second handler only; the current socket keeps
    both attached, the first before the second. *)
Theorem second_on_replaces_stored (event : string) (h1 h2 : nat) (svc : t)
    (s : Socket) :
  socket svc = Some s →
  JsMap.get event (eventHandlers (on event h2 (on event h1 svc))) =
    Some (wrappedHandler h2) ∧
  length (eventHandlers (on event h2 (on event h1 svc))) =
    length (eventHandlers (on event h1 svc)) ∧
  socket (on event h2 (on event h1 svc)) =
    Some (mkSocket (connected s)
            (listeners s ++ [(event, wrappedHandler h1);
                             (event, wrappedHandler h2)])).
Proof.
  intros Hs. unfold on. simpl. rewrite Hs. simpl.
  assert (∀ (m : list (string * Listener)) v,
            JsMap.get event (JsMap.set event v m) = Some v) as Hget.
  { intros m v. induction m as [|[k' v'] m IH]; simpl.
    - by rewrite string_eqb_refl.
    - destruct (String.eqb k' event) eqn:E; simpl.
      + by rewrite string_eqb_refl.
      + by rewrite E. }
  assert (∀ (m : list (string * Listener)) v w,
            length (JsMap.set event v (JsMap.set event w m)) =
            length (JsMap.set event w m)) as Hlen.
  { intros m v w. induction m as [|[k' v'] m IH]; simpl.
    - by rewrite string_eqb_refl.
    - destruct (String.eqb k' event) eqn:E; simpl.
      + by rewrite string_eqb_refl.
      + rewrite E. simpl. by rewrite IH. }
  split_and!; [apply Hget|apply Hlen|].
  unfold socket_on. simpl. by rewrite <- app_assoc.
Qed.

(** The page registers two handlers for ["chat:message"]. *)
Lemma second_on_replaces_stored_witness :
  JsMap.get "chat:message"
    (eventHandlers (on "chat:message" 2 (on "chat:message" 1 (connect None new))))
    = Some (wrappedHandler 2) ∧
  length (eventHandlers
            (on "chat:message" 2 (on "chat:message" 1 (connect None new)))) = 1.
Proof.
  destruct (second_on_replaces_stored "chat:message" 1 2 (connect None new)
              (mkSocket false
                 [("connect", join_on_connect None);
                  ("connect_error", reject_on_connect_error);
                  ("disconnect", reconnect_on_disconnect);
                  ("error", log_error);
                  ("connect", reset_on_connect);
                  ("disconnect", reconnect_on_disconnect);
                  ("connect_error", log_connect_error)]))
    as (Hget & Hlen & _); [reflexivity|].
  split; [exact Hget|exact Hlen].
Defined.

End SocketServiceFacts.

(** * The chat page's view of a toggle *)

Lemma hasUserReacted_has_reaction (rs : list Reaction) (e : string)
    (u : UserId) :
  hasUserReacted rs e u = has_reaction u e rs.
Proof.
  unfold hasUserReacted, has_reaction, same_reaction.
  induction rs as [|r rs IH]; simpl; [done|]. by rewrite IH, andb_comm.
Qed.

Lemma filter_filter_shorter {A : Type} (p q : A → bool) (l : list A) :
  (∃ x, In x l ∧ p x = true ∧ q x = false) →
  length (List.filter p (List.filter q l)) < length (List.filter p l).
Proof.
  assert (∀ l', length (List.filter p (List.filter q l')) ≤
                length (List.filter p l')) as Hle.
  { induction l' as [|y l' IH]; simpl; [done|].
    destruct (q y), (p y) eqn:Hp; simpl; rewrite ?Hp; simpl; lia. }
  induction l as [|y l IH]; simpl; intros (x & Hin & Hp & Hq); [done|].
  destruct Hin as [->|Hin].
  - rewrite Hq, Hp. simpl. specialize (Hle l). lia.
  - specialize (IH (ex_intro _ x (conj Hin (conj Hp Hq)))).
    destruct (q y), (p y) eqn:Hpy; simpl; rewrite ?Hpy; simpl; lia.
Qed.

(** X18. The chat page follows the toggle.  After [react] on a stored
    message with a non-empty emoji, the reactions the server stores are the
    ones it reports, and on them the page's [hasUserReacted] for that user
    and emoji is the opposite of what it was; the page's count for the emoji
    went up by one when the reaction was added and went down when it was
    removed. *)
Theorem page_follows_toggle (st : Server) (sid : SocketId) (now : Date)
    (id : MessageId) (u : UserId) (e : string) (m : Message) :
  findById id (Messages st) = Some m →
  e ≠ "" →
  ∃ rs action,
    reactions_of (react st sid now id u e).1 id = Some rs ∧
    reports id u e rs action (react st sid now id u e).2 ∧
    hasUserReacted rs e u = negb (hasUserReacted (reactions m) e u) ∧
    (hasUserReacted (reactions m) e u = false →
       getReactionCount rs e = S (getReactionCount (reactions m) e)) ∧
    (hasUserReacted (reactions m) e u = true →
       getReactionCount rs e < getReactionCount (reactions m) e).
Proof.
  intros Hfind He. rewrite !hasUserReacted_has_reaction.
  destruct (has_reaction u e (reactions m)) eqn:Hhas.
  - destruct (react_removes st sid now id u e m Hfind Hhas)
      as (m1 & Hfind1 & Hrs1 & Hout1).
    exists (reactions m1), "removed". unfold reactions_of. rewrite Hfind1.
    split_and!; [done|done| |done|].
    + rewrite hasUserReacted_has_reaction, Hrs1. apply existsb_filter_negb.
    + intros _. rewrite Hrs1. unfold getReactionCount.
      apply filter_filter_shorter.
      unfold has_reaction in Hhas.
      apply existsb_exists in Hhas as (r & Hr & Hsame).
      exists r. split; [done|]. rewrite Hsame. split; [|done].
      apply same_reaction_key in Hsame. injection Hsame as _ ->.
      apply string_eqb_refl.
  - destruct (react_adds st sid now id u e m Hfind He Hhas)
      as (m1 & Hfind1 & Hrs1 & Hout1).
    exists (reactions m1), "added". unfold reactions_of. rewrite Hfind1.
    split_and!; [done|done| | |done].
    + rewrite hasUserReacted_has_reaction, Hrs1. unfold has_reaction.
      rewrite existsb_app. simpl.
      by rewrite !string_eqb_refl, orb_true_r.
    + intros _. rewrite Hrs1. unfold getReactionCount.
      rewrite List.filter_app, length_app. simpl.
      rewrite string_eqb_refl. simpl. lia.
Qed.

(** ["u2"] reacts to the message of [chatting] with a thumbs-up. *)
Lemma page_follows_toggle_witness :
  ∃ rs action,
    reactions_of (react chatting "s2" 7 1 "u2" "👍").1 1 = Some rs ∧
    reports 1 "u2" "👍" rs action (react chatting "s2" 7 1 "u2" "👍").2 ∧
    hasUserReacted rs "👍" "u2" =
      negb (hasUserReacted (reactions hi_message) "👍" "u2") ∧
    (hasUserReacted (reactions hi_message) "👍" "u2" = false →
       getReactionCount rs "👍" =
         S (getReactionCount (reactions hi_message) "👍")) ∧
    (hasUserReacted (reactions hi_message) "👍" "u2" = true →
       getReactionCount rs "👍" < getReactionCount (reactions hi_message) "👍").
Proof.
  apply (page_follows_toggle chatting "s2" 7 1 "u2" "👍" hi_message);
    [reflexivity|discriminate].
Defined.

(** * Reachable registries *)

Lemma JsMap_set_keys {V : Type} (k : string) (v : V) (m : list (string * V)) :
  NoDup (map fst m) → NoDup (map fst (JsMap.set k v m)).
Proof.
  destruct (JsMap.get k m) as [w|] eqn:Hget.
  - assert (map fst (JsMap.set k v m) = map fst m) as ->; [|done].
    induction m as [|[k' v'] m IH]; simpl in *; [done|].
    destruct (String.eqb_spec k' k) as [->|Hne]; simpl; [done|].
    by rewrite IH.
  - intros Hnd. apply JsMap_get_has in Hget as Hhas.
    rewrite (JsMap_set_fresh _ _ _ Hhas), map_app. simpl.
    apply NoDup_app. split_and!; [done| |apply NoDup_singleton].
    intros x Hx Hx'. apply list_elem_of_singleton in Hx' as ->.
    by apply JsMap_get_None_key in Hget.
Qed.

Lemma JsMap_delete_keys {V : Type} (k : string) (m : list (string * V)) :
  NoDup (map fst m) → NoDup (map fst (JsMap.delete k m)).
Proof.
  induction m as [|[k' v'] m IH]; simpl; [done|]. intros Hnd.
  apply NoDup_cons in Hnd as [Hk' Hnd].
  destruct (String.eqb k' k); [done|]. simpl.
  apply NoDup_cons. split; [|by apply IH].
  intros Hin. apply Hk'. apply list_elem_of_fmap in Hin as ([k0 v0] & -> & Hin).
  apply (list_elem_of_fmap_2 fst _ (k0, v0)).
  assert (∀ l : list (string * V), (k0, v0) ∈ JsMap.delete k l → (k0, v0) ∈ l)
    as Hsub; [|by apply Hsub].
  clear. induction l as [|[k1 v1] l IH]; simpl; [done|].
  destruct (String.eqb k1 k); [by right|].
  intros H. apply elem_of_cons in H as [->|H]; [left|right; by apply IH].
Qed.

Lemma handle_activeUsers (rev : Revision) (st : Server) (sid : SocketId)
    (now : Date) (i : Input) :
  activeUsers (handle rev st sid now i).1 = activeUsers st ∨
  (∃ v, activeUsers (handle rev st sid now i).1 =
          JsMap.set sid v (activeUsers st)) ∨
  activeUsers (handle rev st sid now i).1 = JsMap.delete sid (activeUsers st) ∨
  activeUsers (handle rev st sid now i).1 = [].
Proof.
  destruct i as [| |e]; simpl.
  - left. destruct (negb _ || _); [done|]. by destruct rev.
  - case_bool_decide; [|by left]. unfold on_disconnect. simpl.
    destruct (JsMap.get sid (activeUsers st));
      [right; right; by left|by left].
  - case_bool_decide; [|by left].
    destruct e as [d|d|d|d|d|d|d|d|d|d|d|d|d|d|]; simpl.
    + right. left. destruct d; by eexists.
    + left. generalize (on_chat_message_Messages st sid now).
      unfold on_chat_message. destruct d as [d|]; [|done]. intros _.
      destruct (Message_create _ _ _); [|done].
      destruct (find_by_id_toString _ _) as [[[??]|]|]; try done.
      by destruct (Users st !! _).
    + left. by rewrite on_chat_get_history_state.
    + left. unfold on_message_react. repeat (case_match; simpl; try done).
    + left. unfold on_message_edit. repeat (case_match; simpl; try done).
    + left. unfold on_message_delete. repeat (case_match; simpl; try done).
    + left. destruct rev; [|done]. unfold on_webrtc_offer.
      repeat (case_match; simpl; try done).
    + left. destruct rev; [|done]. by destruct d.
    + left. destruct rev; [|done]. by destruct d.
    + left. destruct rev; [|done]. by destruct d.
    + destruct d as [d|], rev; try by left.
      * left. unfold on_videoCallInvitation.
        repeat (case_match; simpl; try done).
      * by repeat right.
    + destruct d as [d|], rev; try by left.
      * left. unfold on_joinVideoCallRoom.
        repeat (case_match; simpl; try done).
      * by repeat right.
    + left. destruct rev; [done|]. by destruct d.
    + left. destruct rev; [done|]. by destruct d.
    + left. by destruct rev.
Qed.

(** The registry of a server started empty never has two entries for one
    connection, so the condition of X5 and X6 holds after every run. *)
Lemma run_keys_distinct (rev : Revision)
    (trace : list (SocketId * Date * Input)) (st : Server) :
  keys_distinct st → keys_distinct (run rev st trace).1.
Proof.
  revert st. induction trace as [|[[sid now] i] trace IH]; intros st Hst;
    [done|].
  simpl. pose proof (handle_activeUsers rev st sid now i) as Hstep.
  destruct (handle rev st sid now i) as [st1 out1]. simpl in Hstep.
  specialize (IH st1). destruct (run rev st1 trace) as [st2 out2]. simpl in *.
  apply IH. unfold keys_distinct in *.
  destruct Hstep as [->|[[v ->]|[->| ->]]];
    [done|by apply JsMap_set_keys|by apply JsMap_delete_keys|constructor].
Qed.
